(** * Simple rate-constant calculator: reaction-order selection

    A shallow embedding of [py_rate_order.py]: [transform_data] linearises
    concentration data for a candidate reaction order and
    [determine_best_order] fits the three candidates and keeps the one with
    the highest coefficient of determination.

    Numbers: the program computes on NumPy float64 arrays.  Here every
    finite float is an exact real number ([R]), so the statements below
    are about the arithmetic the program asks for, not about rounding or
    overflow.  The values the selector compares, [r_value ** 2] and
    [best_r2], are of type [ext_real]: a real number, an infinity
    ([best_r2] starts at [-np.inf]) or nan, which the correlation
    coefficient is when a variance is zero and which compares false with
    everything. *)

From Stdlib Require Import String Reals Lra Lia List ZArith Bool PeanoNat.
From Stdlib Require Import Permutation.
Import ListNotations.

Open Scope R_scope.

(** ** Exceptions *)

(** Every failure of the program is a Python [ValueError] that carries a
    message; [except Exception] catches all of them. *)
Inductive exn : Type :=
| ValueError (msg : string).

Inductive result (A : Type) : Type :=
| OK (a : A)
| Raise (e : exn).

Arguments OK {A} a.
Arguments Raise {A} e.

Definition bind {A B : Type} (m : result A) (k : A -> result B) : result B :=
  match m with
  | OK a => k a
  | Raise e => Raise e
  end.

Notation "x <- m ;; k" := (bind m (fun x => k))
  (at level 61, m at next level, right associativity).
Notation "' p <- m ;; k" := (bind m (fun x => match x with p => k end))
  (at level 61, p pattern, m at next level, right associativity).

(** The error kinds of the specification, as the [ValueError]s the code
    raises for them. *)
Definition msg_ln : string :=
  "All concentration values must be positive for ln[A].".
Definition msg_inv : string :=
  "All concentration values must be positive for 1/[A].".
Definition msg_order : string := "Order must be 0, 1, or 2.".
Definition msg_empty : string := "Inputs must not be empty.".
Definition msg_identical : string :=
  "Cannot calculate a linear regression if all x values are identical".
Definition msg_shape : string :=
  "all the input array dimensions except for the concatenation axis must match exactly".
Definition msg_nofit : string :=
  "Unable to fit any reaction order with the provided data.".

Definition InvalidInputError (e : exn) : Prop :=
  e = ValueError msg_ln \/ e = ValueError msg_inv.
Definition InvalidOrderError : exn := ValueError msg_order.
Definition DegenerateFitError : exn := ValueError msg_identical.
Definition NoValidFitError : exn := ValueError msg_nofit.

(** ** Comparisons on reals, as booleans *)

Definition Rleb (a b : R) : bool := if Rle_dec a b then true else false.
Definition Rltb (a b : R) : bool := if Rlt_dec a b then true else false.
Definition Rgtb (a b : R) : bool := if Rgt_dec a b then true else false.
Definition Reqb (a b : R) : bool := if Req_dec_T a b then true else false.

(** ** NumPy array primitives on [list R] *)

Module np.

(** [np.any(a <= 0)] *)
Definition any_le0 (a : list R) : bool :=
  existsb (fun c => Rleb c 0) a.

(** [np.log(a)] *)
Definition log (a : list R) : list R := map ln a.

(** [1 / a] *)
Definition reciprocal (a : list R) : list R := map (fun c => 1 / c) a.

Definition sum (a : list R) : R := fold_right Rplus 0 a.

(** [np.mean(a, None)] *)
Definition mean (a : list R) : R := sum a / INR (length a).

(** [np.amax(a)] and [np.amin(a)]; only used on non-empty arrays. *)
Definition amax (a : list R) : R :=
  match a with
  | [] => 0
  | v :: l => fold_left Rmax l v
  end.

Definition amin (a : list R) : R :=
  match a with
  | [] => 0
  | v :: l => fold_left Rmin l v
  end.

(** [a - avg] *)
Definition center (a : list R) : list R :=
  let avg := mean a in map (fun v => v - avg) a.

(** [np.dot(a, b)] on vectors of one length. *)
Definition dot (a b : list R) : R :=
  sum (map (fun p => fst p * snd p) (combine a b)).

(** [np.cov(x, y, bias=1).flat]: the rows [x] and [y] are stacked (which
    fails when their lengths differ; [msg_shape] is the start of NumPy's
    message, which goes on to name the two sizes), centred, and the
    products of the centred rows are scaled by [1 / N].  The four entries
    are returned in row-major order. *)
Definition cov_bias (x y : list R) : result (R * R * R * R) :=
  if negb (length x =? length y)%nat then Raise (ValueError msg_shape)
  else
    let fact := INR (length x) in
    let xc := center x in
    let yc := center y in
    OK (dot xc xc * (1 / fact), dot xc yc * (1 / fact),
        dot yc xc * (1 / fact), dot yc yc * (1 / fact)).

End np.

(** ** Values that may not be numbers *)

(** A float64 as the selector sees it: a real number, an infinity or nan. *)
Inductive ext_real : Type :=
| NegInf
| PosInf
| Fin (r : R)
| NaN.

(** [a > b] on floats: false as soon as one side is nan. *)
Definition gt_ext (a b : ext_real) : bool :=
  match a, b with
  | NaN, _ | _, NaN => false
  | NegInf, _ => false
  | _, PosInf => false
  | PosInf, _ => true
  | Fin _, NegInf => true
  | Fin x, Fin y => Rgtb x y
  end.

(** [a ** 2] on floats. *)
Definition square (a : ext_real) : ext_real :=
  match a with
  | Fin r => Fin (r ^ 2)
  | NaN => NaN
  | NegInf | PosInf => PosInf
  end.

(** ** The regression routine *)

(** Modelled from the spec: [scipy.stats.linregress] is a library routine,
    not part of the sources.  The model follows the specification's
    regression primitive (least-squares slope and intercept, Pearson [r],
    failure on zero variance of the independent variable) in the order of
    the library's own steps: empty input is refused, then identical [x]
    values, then the biased covariance matrix gives [ssxm], [ssxym] and
    [ssym].  [r] is the quotient [ssxym / sqrt (ssxm * ssym)] of the
    specification, clipped to [-1, 1]; when a variance is zero that
    quotient is 0/0 and [r] is nan.  Of the five results the caller binds
    three: slope, intercept and [r].  The specification gives the routine
    paired sequences of n >= 2 points.  On a lone sample the steps above
    find a zero variance, hence nan; sequences of different lengths are
    refused by the covariance matrix. *)
Definition linregress (x y : list R) : result (R * R * ext_real) :=
  if ((length x =? 0)%nat || (length y =? 0)%nat)%bool then
    Raise (ValueError msg_empty)
  else if (Reqb (np.amax x) (np.amin x) && (1 <? length x)%nat)%bool then
    Raise (ValueError msg_identical)
  else
    let xmean := np.mean x in
    let ymean := np.mean y in
    '(ssxm, ssxym, _, ssym) <- np.cov_bias x y ;;
    let r :=
      if (Reqb ssxm 0 || Reqb ssym 0)%bool then NaN
      else
        let r := ssxym / sqrt (ssxm * ssym) in
        if Rgtb r 1 then Fin 1
        else if Rltb r (-1) then Fin (-1)
        else Fin r in
    let slope := ssxym / ssxm in
    let intercept := ymean - slope * xmean in
    OK (slope, intercept, r).

(** ** transform_data *)

Definition transform_data (time concentration : list R) (order : Z)
  : result (list R * list R * string * Z) :=
  if (order =? 0)%Z then
    let y := concentration in
    let ylabel := "[A] (M)"%string in
    let sign_factor := (-1)%Z in
    OK (time, y, ylabel, sign_factor)
  else if (order =? 1)%Z then
    if np.any_le0 concentration then Raise (ValueError msg_ln)
    else
      let y := np.log concentration in
      let ylabel := "ln[A]"%string in
      let sign_factor := (-1)%Z in
      OK (time, y, ylabel, sign_factor)
  else if (order =? 2)%Z then
    if np.any_le0 concentration then Raise (ValueError msg_inv)
    else
      let y := np.reciprocal concentration in
      let ylabel := "1/[A] (1/M)"%string in
      let sign_factor := 1%Z in
      OK (time, y, ylabel, sign_factor)
  else Raise (ValueError msg_order).

(** ** determine_best_order *)

(** The tuple [(slope, intercept, y, ylabel, sign_factor)]. *)
Definition details : Type := (R * R * list R * string * Z)%type.

Record best_state : Type := mk_state {
  best_order : option Z;
  best_r2 : ext_real;
  best_details : option details
}.

Definition init_state : best_state :=
  {| best_order := None; best_r2 := NegInf; best_details := None |}.

(** The first three statements of the [try] block: transform, regress,
    square [r]. *)
Definition fit_order (time concentration : list R) (order : Z)
  : result (ext_real * details) :=
  '(t, y, ylabel, sign_factor) <- transform_data time concentration order ;;
  '(slope, intercept, r_value) <- linregress t y ;;
  let r2 := square r_value in
  OK (r2, (slope, intercept, y, ylabel, sign_factor)).

(** One iteration of the [for] loop, with its [except Exception: continue]. *)
Definition try_order (time concentration : list R)
  (st : best_state) (order : Z) : best_state :=
  match fit_order time concentration order with
  | OK (r2, d) =>
      if gt_ext r2 (best_r2 st) then
        {| best_order := Some order; best_r2 := r2; best_details := Some d |}
      else st
  | Raise _ => st
  end.

Definition orders : list Z := [0; 1; 2]%Z.

Definition run_orders (time concentration : list R) : best_state :=
  fold_left (try_order time concentration) orders init_state.

Definition determine_best_order (time concentration : list R)
  : result (Z * ext_real * option details) :=
  let st := run_orders time concentration in
  match best_order st with
  | None => Raise (ValueError msg_nofit)
  | Some o => OK (o, best_r2 st, best_details st)
  end.

(** [rate_constant = sign_factor * slope], as [plot_best_fit] computes it. *)
Definition rate_constant (sign_factor : Z) (slope : R) : R :=
  IZR sign_factor * slope.

(** ** Names for the intermediate values of the regression *)

(** The entries [ssxm], [ssxym] and [ssym] of the covariance matrix. *)
Definition ssxm_of (x : list R) : R :=
  np.dot (np.center x) (np.center x) * (1 / INR (length x)).
Definition ssxym_of (x y : list R) : R :=
  np.dot (np.center x) (np.center y) * (1 / INR (length x)).
Definition ssym_of (x y : list R) : R :=
  np.dot (np.center y) (np.center y) * (1 / INR (length x)).

(** The correlation coefficient as [linregress] computes it from them:
    the clipped quotient when it is a number, and the value itself. *)
Definition r_value_of (ssxm ssxym ssym : R) : R :=
  let r := ssxym / sqrt (ssxm * ssym) in
  if Rgtb r 1 then 1 else if Rltb r (-1) then -1 else r.

Definition rvalue (ssxm ssxym ssym : R) : ext_real :=
  if (Reqb ssxm 0 || Reqb ssym 0)%bool then NaN
  else Fin (r_value_of ssxm ssxym ssym).

(** ** Vocabulary of the specification *)

(** What the specification asks of orders 1 and 2 when they do not fail:
    the elementwise natural logarithm, respectively reciprocal. *)
Definition linearized (order : Z) (concentration : list R) : list R :=
  if (order =? 1)%Z then map ln concentration
  else map (fun c => 1 / c) concentration.

(** All values of a sequence are identical. *)
Definition all_identical (t : list R) : Prop :=
  forall a b, In a t -> In b t -> a = b.

(** A sequence contains at least two distinct values. *)
Definition two_distinct (t : list R) : Prop :=
  exists a b, In a t /\ In b t /\ a <> b.

(** The least-squares closed form in the specification's words:
    slope = sum (t_i - tbar)(y_i - ybar) / sum (t_i - tbar)^2 and
    intercept = ybar - slope * tbar. *)
Definition ols_slope (t y : list R) : R :=
  let tbar := np.mean t in
  let ybar := np.mean y in
  np.sum (map (fun p => (fst p - tbar) * (snd p - ybar)) (combine t y))
  / np.sum (map (fun ti => (ti - tbar) ^ 2) t).

Definition ols_intercept (t y : list R) : R :=
  np.mean y - ols_slope t y * np.mean t.

(** The state of the selection loop after the orders [tried], in the
    order they were tried: nothing is recorded exactly when no attempt
    gave a number for r-squared (it raised, or gave nan), and a recorded
    order is the first one whose r-squared is maximal, stored with its
    own fit. *)
Definition selected (time concentration : list R) (tried : list Z)
  (st : best_state) : Prop :=
  match best_order st with
  | None =>
      best_r2 st = NegInf /\ best_details st = None /\
      forall o r2 d, In o tried ->
        fit_order time concentration o <> OK (Fin r2, d)
  | Some o =>
      exists r2 d before after,
        tried = before ++ o :: after /\
        fit_order time concentration o = OK (Fin r2, d) /\
        best_r2 st = Fin r2 /\ best_details st = Some d /\
        (forall o' r2' d', In o' before ->
           fit_order time concentration o' = OK (Fin r2', d') -> r2' < r2) /\
        (forall o' r2' d', In o' after ->
           fit_order time concentration o' = OK (Fin r2', d') -> r2' <= r2)
  end.

(** ** plot_best_fit: the computed part *)

(** [fit_line = intercept + slope * time], the line [plot_best_fit] draws
    through the transformed data.  The rate constant it prints is
    [rate_constant] above; rendering and printing are not modelled. *)
Definition fit_line (intercept slope : R) (time : list R) : list R :=
  map (fun t => intercept + slope * t) time.

(** ** Vocabulary for the further properties *)

(** The inverse of the linearisation of each order. *)
Definition untransform (order : Z) (y : list R) : list R :=
  if (order =? 1)%Z then map exp y
  else if (order =? 2)%Z then map (fun v => 1 / v) y
  else y.

(** The integrated rate laws named in the docstring of [transform_data]:
    [A] = [A]0 - k t, ln [A] = ln [A]0 - k t and 1/[A] = 1/[A]0 + k t. *)
Definition zero_order_law (c0 k t : R) : R := c0 - k * t.
Definition first_order_law (c0 k t : R) : R := c0 * exp (- k * t).
Definition second_order_law (c0 k t : R) : R := 1 / (1 / c0 + k * t).

(** A sequence contains at least three distinct values. *)
Definition three_distinct (t : list R) : Prop :=
  exists t1 t2 t3,
    In t1 t /\ In t2 t /\ In t3 t /\ t1 <> t2 /\ t2 <> t3 /\ t1 <> t3.

(** The sum of squared residuals between the data [y] and the line
    [fit_line a b t]. *)
Definition sse (a b : R) (t y : list R) : R :=
  np.sum (map (fun p => (fst p - snd p) ^ 2) (combine y (fit_line a b t))).

(** * Properties *)

(** Evaluates the statistics of explicit data down to arithmetic. *)
Ltac unfold_stats :=
  unfold ssxm_of, ssxym_of, ssym_of, np.dot, np.center, np.mean, np.sum;
  simpl.

(** ** Boolean comparisons *)

Lemma Rleb_true (a b : R) : Rleb a b = true <-> a <= b.
Proof. unfold Rleb; destruct (Rle_dec a b); split; intros; auto; discriminate. Qed.

Lemma Rleb_false (a b : R) : Rleb a b = false <-> b < a.
Proof.
  unfold Rleb; destruct (Rle_dec a b); split; intros; auto; try discriminate; lra.
Qed.

Lemma Rgtb_true (a b : R) : Rgtb a b = true <-> a > b.
Proof. unfold Rgtb; destruct (Rgt_dec a b); split; intros; auto; discriminate. Qed.

Lemma Rgtb_false (a b : R) : Rgtb a b = false <-> a <= b.
Proof.
  unfold Rgtb; destruct (Rgt_dec a b); split; intros; auto; try discriminate; lra.
Qed.

Lemma Rltb_true (a b : R) : Rltb a b = true <-> a < b.
Proof. unfold Rltb; destruct (Rlt_dec a b); split; intros; auto; discriminate. Qed.

Lemma Rltb_false (a b : R) : Rltb a b = false <-> b <= a.
Proof.
  unfold Rltb; destruct (Rlt_dec a b); split; intros; auto; try discriminate; lra.
Qed.

Lemma Reqb_true (a b : R) : Reqb a b = true <-> a = b.
Proof. unfold Reqb; destruct (Req_dec_T a b); split; intros; auto; discriminate. Qed.

Lemma Reqb_false (a b : R) : Reqb a b = false <-> a <> b.
Proof.
  unfold Reqb; destruct (Req_dec_T a b); split; intros; auto; try discriminate.
  contradiction.
Qed.

(** ** The transformer *)

Lemma any_le0_true (a : list R) :
  np.any_le0 a = true <-> Exists (fun v => v <= 0) a.
Proof.
  unfold np.any_le0. rewrite existsb_exists, Exists_exists.
  split; intros [v [Hin Hv]]; exists v; split; auto; now apply Rleb_true.
Qed.

Lemma any_le0_false (a : list R) :
  np.any_le0 a = false <-> Forall (fun v => 0 < v) a.
Proof.
  unfold np.any_le0. induction a as [|v a IH]; simpl.
  - split; auto.
  - rewrite orb_false_iff, IH, Rleb_false. split.
    + intros [Hv Ha]. now constructor.
    + intros H. inversion H; subst. now split.
Qed.

Lemma transform_data_order0 (time concentration : list R) :
  transform_data time concentration 0
  = OK (time, concentration, "[A] (M)"%string, (-1)%Z).
Proof. reflexivity. Qed.

(** C7. For order 0 the transformer returns the concentration array
    unchanged as [y] (so [y] equals it elementwise), with the label
    "[A] (M)" and the sign factor -1, and it never raises, whatever the
    sign of the concentrations. *)
Theorem transform_order0_identity (time concentration : list R) :
  transform_data time concentration 0
  = OK (time, concentration, "[A] (M)"%string, (-1)%Z) /\
  (forall t y ylabel sign_factor,
     transform_data time concentration 0 = OK (t, y, ylabel, sign_factor) ->
     length y = length concentration /\
     (forall i, nth i y 0 = nth i concentration 0) /\
     ylabel = "[A] (M)"%string /\ sign_factor = (-1)%Z) /\
  (forall e, transform_data time concentration 0 <> Raise e).
Proof.
  rewrite transform_data_order0. split; [reflexivity|]. split.
  - intros t y ylabel sign_factor H. injection H as _ <- <- <-. auto.
  - intros e H. discriminate.
Qed.

(** C8. For every order other than 0, 1 and 2 the transformer raises
    [InvalidOrderError], for any time and concentration arrays. *)
Theorem transform_invalid_order (time concentration : list R) (order : Z) :
  order <> 0%Z -> order <> 1%Z -> order <> 2%Z ->
  transform_data time concentration order = Raise InvalidOrderError.
Proof.
  intros H0 H1 H2. unfold transform_data.
  destruct (Z.eqb_spec order 0); [contradiction|].
  destruct (Z.eqb_spec order 1); [contradiction|].
  destruct (Z.eqb_spec order 2); [contradiction|].
  reflexivity.
Qed.

Lemma transform_invalid_order_witness :
  (3 <> 0 /\ 3 <> 1 /\ 3 <> 2)%Z /\
  transform_data [0; 1] [2; 1] 3 = Raise InvalidOrderError.
Proof.
  split; [lia | apply (transform_invalid_order [0; 1] [2; 1] 3); lia].
Defined.

(** C4. For order 1 or 2 the transformer raises exactly when some
    concentration is <= 0, what it raises is an [InvalidInputError], and
    otherwise it returns as [y] the elementwise natural logarithm (order 1)
    or the elementwise reciprocal (order 2) of the concentrations. *)
Theorem transform_order12 (time concentration : list R) (order : Z) :
  order = 1%Z \/ order = 2%Z ->
  ((exists e, transform_data time concentration order = Raise e /\
              InvalidInputError e)
   <-> Exists (fun v => v <= 0) concentration) /\
  (forall e, transform_data time concentration order = Raise e ->
             InvalidInputError e) /\
  (~ Exists (fun v => v <= 0) concentration ->
   exists ylabel sign_factor,
     transform_data time concentration order
     = OK (time, linearized order concentration, ylabel, sign_factor)) /\
  (forall t y ylabel sign_factor,
     transform_data time concentration order = OK (t, y, ylabel, sign_factor) ->
     y = linearized order concentration /\
     length y = length concentration /\
     forall i, (i < length concentration)%nat ->
       nth i y 0 =
       if (order =? 1)%Z then ln (nth i concentration 0)
       else 1 / nth i concentration 0).
Proof.
  intros Ho.
  assert (Hnth : forall i, (i < length concentration)%nat ->
            nth i (linearized order concentration) 0 =
            if (order =? 1)%Z then ln (nth i concentration 0)
            else 1 / nth i concentration 0).
  { intros i Hi. unfold linearized. destruct (order =? 1)%Z.
    - rewrite (nth_indep _ 0 (ln 0)) by now rewrite length_map.
      apply map_nth.
    - rewrite (nth_indep _ 0 (1 / 0)) by now rewrite length_map.
      apply (map_nth (fun c => 1 / c)). }
  assert (Hlen : length (linearized order concentration) = length concentration).
  { unfold linearized. destruct (order =? 1)%Z; apply length_map. }
  unfold transform_data.
  destruct (np.any_le0 concentration) eqn:Hany.
  - assert (Hex : Exists (fun v => v <= 0) concentration)
      by now apply any_le0_true.
    destruct Ho as [-> | ->]; simpl; unfold InvalidInputError.
    + repeat split; try (intros; discriminate); auto.
      * exists (ValueError msg_ln). auto.
      * intros e He. injection He as <-. auto.
      * intros Hn. contradiction.
    + repeat split; try (intros; discriminate); auto.
      * exists (ValueError msg_inv). auto.
      * intros e He. injection He as <-. auto.
      * intros Hn. contradiction.
  - assert (Hnex : ~ Exists (fun v => v <= 0) concentration).
    { intros Hex. apply any_le0_true in Hex. congruence. }
    destruct Ho as [-> | ->]; simpl in *.
    + repeat split; try (intros; discriminate); eauto.
      * intros [e [He _]]. discriminate.
      * intros Hex. contradiction.
      * injection H as _ <- _ _. reflexivity.
      * injection H as _ <- _ _. exact Hlen.
      * injection H as _ <- _ _. exact Hnth.
    + repeat split; try (intros; discriminate); eauto.
      * intros [e [He _]]. discriminate.
      * intros Hex. contradiction.
      * injection H as _ <- _ _. reflexivity.
      * injection H as _ <- _ _. exact Hlen.
      * injection H as _ <- _ _. exact Hnth.
Qed.

Lemma transform_order12_witness :
  (1 = 1 \/ 1 = 2)%Z /\
  ((exists e, transform_data [0; 1] [2; 0] 1 = Raise e /\ InvalidInputError e)
   <-> Exists (fun v => v <= 0) [2; 0]).
Proof.
  split; [now left |].
  apply (transform_order12 [0; 1] [2; 0] 1). now left.
Defined.

(** ** Array primitives *)

Section Extrema.

Lemma fold_Rmax_ge (l : list R) : forall a,
  a <= fold_left Rmax l a /\ Forall (fun v => v <= fold_left Rmax l a) l.
Proof.
  induction l as [|v l IH]; intros a; simpl.
  - split; [lra | constructor].
  - destruct (IH (Rmax a v)) as [H1 H2].
    pose proof (Rmax_l a v). pose proof (Rmax_r a v).
    split; [lra | constructor; [lra | exact H2]].
Qed.

Lemma fold_Rmin_le (l : list R) : forall a,
  fold_left Rmin l a <= a /\ Forall (fun v => fold_left Rmin l a <= v) l.
Proof.
  induction l as [|v l IH]; intros a; simpl.
  - split; [lra | constructor].
  - destruct (IH (Rmin a v)) as [H1 H2].
    pose proof (Rmin_l a v). pose proof (Rmin_r a v).
    split; [lra | constructor; [lra | exact H2]].
Qed.

Lemma fold_Rmax_in (l : list R) : forall a,
  fold_left Rmax l a = a \/ In (fold_left Rmax l a) l.
Proof.
  induction l as [|v l IH]; intros a; simpl; [now left|].
  destruct (IH (Rmax a v)) as [H | H]; [|now right; right].
  rewrite H. unfold Rmax. destruct (Rle_dec a v); auto.
Qed.

Lemma fold_Rmin_in (l : list R) : forall a,
  fold_left Rmin l a = a \/ In (fold_left Rmin l a) l.
Proof.
  induction l as [|v l IH]; intros a; simpl; [now left|].
  destruct (IH (Rmin a v)) as [H | H]; [|now right; right].
  rewrite H. unfold Rmin. destruct (Rle_dec a v); auto.
Qed.

Lemma amax_upper (t : list R) (v : R) : In v t -> v <= np.amax t.
Proof.
  destruct t as [|a l]; [contradiction|]. simpl.
  destruct (fold_Rmax_ge l a) as [H1 H2]. rewrite Forall_forall in H2.
  intros [<- | Hin]; auto.
Qed.

Lemma amin_lower (t : list R) (v : R) : In v t -> np.amin t <= v.
Proof.
  destruct t as [|a l]; [contradiction|]. simpl.
  destruct (fold_Rmin_le l a) as [H1 H2]. rewrite Forall_forall in H2.
  intros [<- | Hin]; auto.
Qed.

Lemma amax_in (t : list R) : t <> [] -> In (np.amax t) t.
Proof.
  destruct t as [|a l]; [congruence|]. intros _. simpl.
  destruct (fold_Rmax_in l a) as [-> | H]; auto.
Qed.

Lemma amin_in (t : list R) : t <> [] -> In (np.amin t) t.
Proof.
  destruct t as [|a l]; [congruence|]. intros _. simpl.
  destruct (fold_Rmin_in l a) as [-> | H]; auto.
Qed.

(** The library's test [amax x == amin x] says that all values are
    identical. *)
Lemma amax_amin_identical (t : list R) :
  np.amax t = np.amin t <-> all_identical t.
Proof.
  split.
  - intros Heq a b Ha Hb.
    pose proof (amax_upper t a Ha). pose proof (amin_lower t a Ha).
    pose proof (amax_upper t b Hb). pose proof (amin_lower t b Hb). lra.
  - intros Hall. destruct t as [|a l]; [reflexivity|].
    apply Hall; [apply amax_in | apply amin_in]; discriminate.
Qed.

Lemma amax_amin_distinct (t : list R) :
  np.amax t <> np.amin t <-> two_distinct t.
Proof.
  split.
  - intros Hne. assert (Ht : t <> []) by (intros ->; now apply Hne).
    exists (np.amax t), (np.amin t).
    repeat split; [now apply amax_in | now apply amin_in | exact Hne].
  - intros [a [b [Ha [Hb Hab]]]] Heq.
    apply amax_amin_identical in Heq. now apply Hab, Heq.
Qed.

Lemma two_distinct_length (t : list R) : two_distinct t -> (2 <= length t)%nat.
Proof.
  intros [a [b [Ha [Hb Hab]]]].
  destruct t as [|u [|v l]]; simpl in *; try contradiction; [|lia].
  destruct Ha as [<- | []], Hb as [<- | []]. now contradiction Hab.
Qed.

End Extrema.

(** ** Variances *)

Section Variance.

Lemma dot_self_nonneg (a : list R) : 0 <= np.dot a a.
Proof.
  unfold np.dot. induction a as [|u a IH]; simpl; [lra|]. nra.
Qed.

Lemma dot_self_ge (x : list R) (v : R) : In v x -> v * v <= np.dot x x.
Proof.
  induction x as [|u x IH]; [contradiction|].
  pose proof (dot_self_nonneg x) as Hx.
  change (np.dot (u :: x) (u :: x)) with (u * u + np.dot x x).
  intros [-> | Hin]; [lra|]. specialize (IH Hin).
  pose proof (Rle_0_sqr u) as Hu. unfold Rsqr in Hu. lra.
Qed.

Lemma dot_center_positive (x : list R) :
  two_distinct x -> 0 < np.dot (np.center x) (np.center x).
Proof.
  intros (a & b & Ha & Hb & Hab).
  set (m := np.mean x).
  assert (Ia : In (a - m) (np.center x))
    by (unfold np.center; apply (in_map (fun v => v - m)), Ha).
  assert (Ib : In (b - m) (np.center x))
    by (unfold np.center; apply (in_map (fun v => v - m)), Hb).
  apply dot_self_ge in Ia. apply dot_self_ge in Ib.
  destruct (Req_dec a m) as [-> | Ham]; nra.
Qed.

Lemma inv_length_positive (x : list R) :
  x <> [] -> 0 < 1 / INR (length x).
Proof.
  intros Hx. unfold Rdiv. rewrite Rmult_1_l.
  apply Rinv_0_lt_compat, lt_0_INR.
  destruct x; [congruence | simpl; lia].
Qed.

(** Two distinct values give a positive variance. *)
Lemma ssxm_positive (time : list R) : two_distinct time -> 0 < ssxm_of time.
Proof.
  intros Hd. unfold ssxm_of.
  apply Rmult_lt_0_compat; [now apply dot_center_positive|].
  apply inv_length_positive. intros ->.
  destruct Hd as (a & _ & [] & _).
Qed.

Lemma ssym_positive (x y : list R) :
  x <> [] -> two_distinct y -> 0 < ssym_of x y.
Proof.
  intros Hx Hd. unfold ssym_of.
  apply Rmult_lt_0_compat; [now apply dot_center_positive|].
  now apply inv_length_positive.
Qed.

End Variance.

(** ** The regression routine *)

Lemma r_value_of_range (ssxm ssxym ssym : R) :
  -1 <= r_value_of ssxm ssxym ssym <= 1.
Proof.
  unfold r_value_of. cbv zeta.
  destruct (Rgtb _ 1) eqn:H1; [lra|]. apply Rgtb_false in H1.
  destruct (Rltb _ (-1)) eqn:H2; [lra|]. apply Rltb_false in H2. lra.
Qed.

Lemma square_fin (r : R) : square (Fin r) = Fin (r ^ 2).
Proof. reflexivity. Qed.

(** [r] is a number exactly when both variances are non-zero. *)
Lemma rvalue_fin (ssxm ssxym ssym : R) :
  ssxm <> 0 -> ssym <> 0 ->
  rvalue ssxm ssxym ssym = Fin (r_value_of ssxm ssxym ssym).
Proof.
  intros Hx Hy. unfold rvalue.
  apply Reqb_false in Hx. apply Reqb_false in Hy. now rewrite Hx, Hy.
Qed.

Lemma rvalue_nan (ssxm ssxym ssym : R) :
  ssxm = 0 \/ ssym = 0 -> rvalue ssxm ssxym ssym = NaN.
Proof.
  intros H. unfold rvalue.
  destruct H as [H | H]; apply Reqb_true in H; rewrite H;
    [reflexivity | now rewrite orb_true_r].
Qed.

Lemma rvalue_cases (ssxm ssxym ssym : R) :
  rvalue ssxm ssxym ssym = NaN \/
  exists r, rvalue ssxm ssxym ssym = Fin r /\ -1 <= r <= 1.
Proof.
  unfold rvalue. destruct (Reqb ssxm 0 || Reqb ssym 0)%bool; [now left|].
  right. eexists. split; [reflexivity | apply r_value_of_range].
Qed.

Lemma rvalue_inline (ssxm ssxym ssym : R) :
  (if (Reqb ssxm 0 || Reqb ssym 0)%bool then NaN
   else
     let r := ssxym / sqrt (ssxm * ssym) in
     if Rgtb r 1 then Fin 1 else if Rltb r (-1) then Fin (-1) else Fin r)
  = rvalue ssxm ssxym ssym.
Proof.
  unfold rvalue, r_value_of. cbv zeta.
  destruct (Reqb ssxm 0 || Reqb ssym 0)%bool; [reflexivity|].
  destruct (Rgtb _ 1); [reflexivity|].
  destruct (Rltb _ (-1)); reflexivity.
Qed.

(** With non-empty arrays of one length whose [x] values are not all
    identical, the regression returns. *)
Lemma linregress_returns (x y : list R) :
  length x = length y -> np.amax x <> np.amin x ->
  linregress x y =
  OK (ssxym_of x y / ssxm_of x,
      np.mean y - ssxym_of x y / ssxm_of x * np.mean x,
      rvalue (ssxm_of x) (ssxym_of x y) (ssym_of x y)).
Proof.
  intros Hlen Hne. unfold linregress.
  assert (Hx : length x <> 0%nat).
  { destruct x; [now contradiction Hne | discriminate]. }
  rewrite <- Hlen. apply Nat.eqb_neq in Hx. rewrite Hx. simpl orb.
  apply Reqb_false in Hne. rewrite Hne. simpl andb.
  unfold np.cov_bias. rewrite <- Hlen, Nat.eqb_refl. simpl negb. cbv iota.
  cbn [bind]. rewrite rvalue_inline. reflexivity.
Qed.

(** With at least two [x] values, all identical, it raises. *)
Lemma linregress_degenerate (x y : list R) :
  (2 <= length x)%nat -> length y <> 0%nat -> all_identical x ->
  linregress x y = Raise DegenerateFitError.
Proof.
  intros Hx Hy Hall. unfold linregress.
  apply Nat.eqb_neq in Hy. rewrite Hy.
  assert (Hx0 : (length x =? 0)%nat = false) by (apply Nat.eqb_neq; lia).
  rewrite Hx0. simpl orb.
  apply amax_amin_identical, Reqb_true in Hall. rewrite Hall.
  assert (Hx1 : (1 <? length x)%nat = true) by (apply Nat.ltb_lt; lia).
  rewrite Hx1. reflexivity.
Qed.

(** What the regression returns, in the names above. *)
Lemma linregress_inv (x y : list R) (slope intercept : R) (r : ext_real) :
  linregress x y = OK (slope, intercept, r) ->
  length x = length y /\
  slope = ssxym_of x y / ssxm_of x /\
  intercept = np.mean y - slope * np.mean x /\
  r = rvalue (ssxm_of x) (ssxym_of x y) (ssym_of x y).
Proof.
  unfold linregress.
  destruct (_ || _)%bool; [discriminate|].
  destruct (_ && _)%bool; [discriminate|].
  unfold np.cov_bias.
  destruct (Nat.eqb_spec (length x) (length y)) as [Hlen|]; simpl;
    [|discriminate].
  rewrite rvalue_inline.
  intros H. injection H as <- <- <-. auto.
Qed.

(** Whatever number it returns as [r] lies in [-1, 1]; what is not a
    number is nan. *)
Lemma linregress_r_range (x y : list R) (slope intercept r : R) :
  linregress x y = OK (slope, intercept, Fin r) -> -1 <= r <= 1.
Proof.
  intros H. apply linregress_inv in H. destruct H as (_ & _ & _ & Hr).
  destruct (rvalue_cases (ssxm_of x) (ssxym_of x y) (ssym_of x y))
    as [E | (r' & E & Hr')]; rewrite E in Hr; [discriminate|].
  injection Hr as ->. exact Hr'.
Qed.

Lemma linregress_r_cases (x y : list R) (slope intercept : R) (r : ext_real) :
  linregress x y = OK (slope, intercept, r) ->
  r = NaN \/ exists v, r = Fin v.
Proof.
  intros H. apply linregress_inv in H. destruct H as (_ & _ & _ & ->).
  destruct (rvalue_cases (ssxm_of x) (ssxym_of x y) (ssym_of x y))
    as [E | (r' & E & _)]; rewrite E; eauto.
Qed.

(** ** One candidate order *)

Lemma fit_order_r2_range (time concentration : list R) (order : Z)
  (r2 : R) (d : details) :
  fit_order time concentration order = OK (Fin r2, d) -> 0 <= r2 <= 1.
Proof.
  unfold fit_order.
  destruct (transform_data time concentration order)
    as [[[[t y] ylabel] sign_factor]|e]; simpl; [|discriminate].
  destruct (linregress t y) as [[[slope intercept] r]|e] eqn:Hreg; simpl;
    [|discriminate].
  destruct (linregress_r_cases _ _ _ _ _ Hreg) as [-> | [v ->]];
    [discriminate|].
  intros H. injection H as <- _.
  apply linregress_r_range in Hreg. nra.
Qed.

(** The r-squared of an attempt is a number or nan. *)
Lemma fit_order_r2_cases (time concentration : list R) (order : Z)
  (x : ext_real) (d : details) :
  fit_order time concentration order = OK (x, d) ->
  x = NaN \/ exists r2, x = Fin r2.
Proof.
  unfold fit_order.
  destruct (transform_data time concentration order)
    as [[[[t y] ylabel] sign_factor]|e]; simpl; [|discriminate].
  destruct (linregress t y) as [[[slope intercept] r]|e] eqn:Hreg; simpl;
    [|discriminate].
  destruct (linregress_r_cases _ _ _ _ _ Hreg) as [-> | [v ->]];
    intros H; injection H as <- _; simpl; eauto.
Qed.

(** Order 0 is fitted with a number for r-squared whenever neither the
    times nor the concentrations are all identical. *)
Lemma fit_order0 (time concentration : list R) :
  length time = length concentration ->
  two_distinct time -> two_distinct concentration ->
  exists r2 d, fit_order time concentration 0 = OK (Fin r2, d).
Proof.
  intros Hlen Ht Hc. unfold fit_order.
  rewrite transform_data_order0. simpl.
  rewrite (linregress_returns _ _ Hlen (proj2 (amax_amin_distinct time) Ht)).
  assert (Hx : time <> []) by (intros ->; destruct Ht as (a & _ & [] & _)).
  pose proof (ssxm_positive time Ht).
  pose proof (ssym_positive time concentration Hx Hc).
  rewrite rvalue_fin by lra. simpl. eauto.
Qed.

(** ** The selection loop *)

Section Selection.

Variables time concentration : list R.

Let fit := fit_order time concentration.
Let step := try_order time concentration.

Lemma selected_init : selected time concentration [] init_state.
Proof.
  unfold selected; simpl. repeat split. intros o r2 d [].
Qed.

(** The loop body keeps the invariant. *)
Lemma try_order_selected (tried : list Z) (st : best_state) (o : Z) :
  selected time concentration tried st ->
  selected time concentration (tried ++ [o]) (step st o).
Proof.
  unfold step, try_order, selected.
  destruct (fit_order time concentration o) as [[x d]|e] eqn:Hfit.
  - destruct (fit_order_r2_cases _ _ _ _ _ Hfit) as [-> | [r2 ->]].
    + (* r-squared is nan: the comparison is false, the state is kept *)
      simpl gt_ext. cbv iota.
      destruct (best_order st) as [o0|].
      * intros (b & d0 & bef & aft & -> & Hf0 & Hb & Hd & Hlt & Hle).
        exists b, d0, bef, (aft ++ [o]). repeat split; auto.
        -- now rewrite <- app_assoc.
        -- intros o' r2' d' Hin Ho'.
           apply in_app_or in Hin. destruct Hin as [Hin | [<- | []]].
           ++ eauto.
           ++ congruence.
      * intros (Hb & Hd & Hall). repeat split; auto.
        intros o' r2' d' Hin. apply in_app_or in Hin.
        destruct Hin as [Hin | [<- | []]]; [now apply Hall | congruence].
    + destruct (gt_ext (Fin r2) (best_r2 st)) eqn:Hgt.
      * (* the new order is strictly better: it becomes the best *)
        intros Hsel. simpl.
        exists r2, d, tried, []. repeat split; auto.
        -- intros o' r2' d' Hin Ho'.
           destruct (best_order st) as [o0|].
           ++ destruct Hsel
                as (b & d0 & bef & aft & -> & Hf0 & Hb & _ & Hlt & Hle).
              rewrite Hb in Hgt. simpl in Hgt. apply Rgtb_true in Hgt.
              apply in_app_or in Hin. destruct Hin as [Hin | [<- | Hin]].
              ** specialize (Hlt _ _ _ Hin Ho'). lra.
              ** rewrite Hf0 in Ho'. injection Ho' as <- _. lra.
              ** specialize (Hle _ _ _ Hin Ho'). lra.
           ++ destruct Hsel as (_ & _ & Hall).
              exfalso. exact (Hall _ _ _ Hin Ho').
        -- intros o' r2' d' [].
      * (* not strictly better: the state is kept *)
        destruct (best_order st) as [o0|].
        -- intros (b & d0 & bef & aft & -> & Hf0 & Hb & Hd & Hlt & Hle).
           rewrite Hb in Hgt. simpl in Hgt. apply Rgtb_false in Hgt.
           exists b, d0, bef, (aft ++ [o]). repeat split; auto.
           ++ now rewrite <- app_assoc.
           ++ intros o' r2' d' Hin Ho'.
              apply in_app_or in Hin. destruct Hin as [Hin | [<- | []]].
              ** eauto.
              ** rewrite Hfit in Ho'. injection Ho' as <- _. exact Hgt.
        -- intros (Hb & _). rewrite Hb in Hgt. discriminate.
  - (* the attempt raised: skipped *)
    destruct (best_order st) as [o0|].
    + intros (b & d0 & bef & aft & -> & Hf0 & Hb & Hd & Hlt & Hle).
      exists b, d0, bef, (aft ++ [o]). repeat split; auto.
      * now rewrite <- app_assoc.
      * intros o' r2' d' Hin Ho'.
        apply in_app_or in Hin. destruct Hin as [Hin | [<- | []]].
        -- eauto.
        -- congruence.
    + intros (Hb & Hd & Hall). repeat split; auto.
      intros o' r2' d' Hin. apply in_app_or in Hin.
      destruct Hin as [Hin | [<- | []]]; [now apply Hall | congruence].
Qed.

Lemma fold_selected (os : list Z) : forall tried st,
  selected time concentration tried st ->
  selected time concentration (tried ++ os) (fold_left step os st).
Proof.
  induction os as [|o os IH]; intros tried st Hsel; simpl.
  - now rewrite app_nil_r.
  - replace (tried ++ o :: os) with ((tried ++ [o]) ++ os)
      by now rewrite <- app_assoc.
    apply IH, try_order_selected, Hsel.
Qed.

Lemma run_orders_selected :
  selected time concentration orders (run_orders time concentration).
Proof. apply (fold_selected orders [] init_state), selected_init. Qed.

(** The selector raises when no order gave a number for r-squared. *)
Lemma determine_raises_nan :
  (forall o r2 d, In o orders -> fit o <> OK (Fin r2, d)) ->
  determine_best_order time concentration = Raise NoValidFitError.
Proof.
  intros Hall. unfold determine_best_order.
  pose proof run_orders_selected as Hsel. unfold selected in Hsel.
  destruct (best_order (run_orders time concentration)) as [o|]; [|reflexivity].
  destruct Hsel as (r2 & d & bef & aft & Heq & Hf & _).
  exfalso. apply (Hall o r2 d); [|exact Hf].
  rewrite Heq. apply in_or_app. right. now left.
Qed.

(** In particular when every order was skipped. *)
Lemma determine_raises :
  (forall o, In o orders -> exists e, fit o = Raise e) ->
  determine_best_order time concentration = Raise NoValidFitError.
Proof.
  intros Hall. apply determine_raises_nan. intros o r2 d Hin Hf.
  destruct (Hall o Hin) as [e He]. unfold fit in *. congruence.
Qed.

(** What the selector returns is the fit of the returned order, which no
    earlier order equals or beats and no later order beats. *)
Lemma determine_returns (o : Z) (b : ext_real) (od : option details) :
  determine_best_order time concentration = OK (o, b, od) ->
  exists r2 d before after,
    orders = before ++ o :: after /\
    fit o = OK (Fin r2, d) /\ b = Fin r2 /\ od = Some d /\
    (forall o' r2' d', In o' before ->
       fit o' = OK (Fin r2', d') -> r2' < r2) /\
    (forall o' r2' d', In o' after ->
       fit o' = OK (Fin r2', d') -> r2' <= r2).
Proof.
  unfold determine_best_order.
  pose proof run_orders_selected as Hsel. unfold selected in Hsel.
  destruct (best_order (run_orders time concentration)) as [o0|];
    [|discriminate].
  intros H. injection H as <- <- <-.
  destruct Hsel as (r2 & d & bef & aft & Heq & Hf & Hb & Hd & Hlt & Hle).
  exists r2, d, bef, aft. repeat split; auto.
Qed.

(** As soon as one order gives a number for r-squared, the selector
    returns. *)
Lemma determine_total (o : Z) (r2 : R) (d : details) :
  In o orders -> fit o = OK (Fin r2, d) ->
  exists o' b od, determine_best_order time concentration = OK (o', b, od).
Proof.
  intros Hin Hf. unfold determine_best_order.
  pose proof run_orders_selected as Hsel. unfold selected in Hsel.
  destruct (best_order (run_orders time concentration)) as [o0|]; eauto.
  destruct Hsel as (_ & _ & Hall). exfalso. exact (Hall o r2 d Hin Hf).
Qed.

End Selection.

(** ** The selector *)

Lemma orders_split (o : Z) (before after : list Z) :
  orders = before ++ o :: after ->
  (o = 0%Z /\ before = [] /\ after = [1; 2]%Z) \/
  (o = 1%Z /\ before = [0]%Z /\ after = [2]%Z) \/
  (o = 2%Z /\ before = [0; 1]%Z /\ after = []).
Proof.
  unfold orders. intros H.
  destruct before as [|a [|b [|c [|x xs]]]]; simpl in H.
  - injection H as <- <-. auto.
  - injection H as <- <- <-. auto.
  - injection H as <- <- <- <-. auto 6.
  - injection H as _ _ _ H. discriminate.
  - injection H as _ _ _ H. destruct xs; discriminate.
Qed.

(** C1. The selector has two outcomes only: it returns an order among 0,
    1 and 2 together with an r-squared between 0 and 1 (and the details of
    that fit), or it raises [NoValidFitError].  This holds for every pair
    of sequences, so in particular for equal lengths of at least 2. *)
Theorem determine_best_order_outcome (time concentration : list R) :
  (exists o r2 d,
     determine_best_order time concentration = OK (o, Fin r2, Some d) /\
     (o = 0 \/ o = 1 \/ o = 2)%Z /\ 0 <= r2 <= 1) \/
  determine_best_order time concentration = Raise NoValidFitError.
Proof.
  destruct (determine_best_order time concentration) as [[[o b] od]|e] eqn:H.
  - left. apply determine_returns in H.
    destruct H as (r2 & d & bef & aft & Heq & Hf & -> & -> & _).
    exists o, r2, d. split; [reflexivity|]. split.
    + apply orders_split in Heq. intuition.
    + eapply fit_order_r2_range, Hf.
  - right. unfold determine_best_order in H.
    destruct (best_order _); [discriminate|]. symmetry. exact H.
Qed.

(** C3 (amended). What the selector returns is the first order that
    reaches the highest r-squared: the returned r-squared is that of the
    returned order, no fitted order has a greater one, and an order whose r-squared
    is exactly equal is never lower-numbered than the returned one.  At
    the level of one loop iteration: an order whose r-squared equals the
    best so far leaves the state as it is. *)
Theorem determine_best_order_tie_break (time concentration : list R)
  (o : Z) (b : ext_real) (od : option details) :
  determine_best_order time concentration = OK (o, b, od) ->
  (exists r2 d,
     b = Fin r2 /\ od = Some d /\
     fit_order time concentration o = OK (Fin r2, d) /\
     forall o' r2' d', In o' orders ->
       fit_order time concentration o' = OK (Fin r2', d') ->
       r2' <= r2 /\ (r2' = r2 -> (o <= o')%Z)) /\
  (forall st o' r2' d',
     fit_order time concentration o' = OK (Fin r2', d') ->
     best_r2 st = Fin r2' ->
     try_order time concentration st o' = st).
Proof.
  intros H. split.
  - apply determine_returns in H.
    destruct H as (r2 & d & bef & aft & Heq & Hf & -> & -> & Hlt & Hle).
    exists r2, d. split; [reflexivity|]. split; [reflexivity|].
    split; [exact Hf|]. intros o' r2' d' Hin Ho'. split.
    + destruct (orders_split _ _ _ Heq)
        as [(-> & -> & ->) | [(-> & -> & ->) | (-> & -> & ->)]];
        unfold orders in Hin; simpl in Hin;
        destruct Hin as [<- | [<- | [<- | []]]];
        try (rewrite Hf in Ho'; injection Ho' as <- _; lra);
        try (apply Rlt_le; eapply Hlt; [|exact Ho']; simpl; tauto);
        try (eapply Hle; [|exact Ho']; simpl; tauto).
    + intros Heq'. subst r2'.
      destruct (orders_split _ _ _ Heq)
        as [(-> & -> & ->) | [(-> & -> & ->) | (-> & -> & ->)]];
        unfold orders in Hin; simpl in Hin;
        destruct Hin as [<- | [<- | [<- | []]]]; try lia;
        exfalso; refine (Rlt_irrefl r2 (Hlt _ _ _ _ Ho')); simpl; tauto.
  - intros st o' r2' d' Ho' Hb. unfold try_order. rewrite Ho', Hb. simpl.
    assert (Hg : Rgtb r2' r2' = false) by (apply Rgtb_false; lra).
    now rewrite Hg.
Qed.

Lemma transform_data_shape (time concentration : list R) (order : Z)
  (t y : list R) (ylabel : string) (sign_factor : Z) :
  transform_data time concentration order = OK (t, y, ylabel, sign_factor) ->
  t = time /\ length y = length concentration.
Proof.
  unfold transform_data, np.log, np.reciprocal.
  destruct (order =? 0)%Z.
  - intros H. injection H as <- <- _ _. auto.
  - destruct (order =? 1)%Z.
    + destruct (np.any_le0 concentration); [discriminate|].
      intros H. injection H as <- <- _ _. now rewrite length_map.
    + destruct (order =? 2)%Z; [|discriminate].
      destruct (np.any_le0 concentration); [discriminate|].
      intros H. injection H as <- <- _ _. now rewrite length_map.
Qed.

Lemma transform_data_cases (time concentration : list R) (order : Z)
  (t y : list R) (ylabel : string) (sign_factor : Z) :
  transform_data time concentration order = OK (t, y, ylabel, sign_factor) ->
  (order = 0%Z /\ y = concentration /\
   ylabel = "[A] (M)"%string /\ sign_factor = (-1)%Z) \/
  (order = 1%Z /\ Forall (fun v => 0 < v) concentration /\
   y = map ln concentration /\
   ylabel = "ln[A]"%string /\ sign_factor = (-1)%Z) \/
  (order = 2%Z /\ Forall (fun v => 0 < v) concentration /\
   y = map (fun c => 1 / c) concentration /\
   ylabel = "1/[A] (1/M)"%string /\ sign_factor = 1%Z).
Proof.
  unfold transform_data, np.log, np.reciprocal.
  destruct (Z.eqb_spec order 0) as [-> | _].
  - intros H. injection H as _ <- <- <-. left. auto.
  - destruct (Z.eqb_spec order 1) as [-> | _].
    + destruct (np.any_le0 concentration) eqn:Hany; [discriminate|].
      apply any_le0_false in Hany.
      intros H. injection H as _ <- <- <-. right. left. auto.
    + destruct (Z.eqb_spec order 2) as [-> | _]; [|discriminate].
      destruct (np.any_le0 concentration) eqn:Hany; [discriminate|].
      apply any_le0_false in Hany.
      intros H. injection H as _ <- <- <-. right. right. auto.
Qed.

Lemma fit_order_inv_ext (time concentration : list R) (order : Z)
  (x : ext_real) (slope intercept : R) (y : list R) (ylabel : string)
  (sign_factor : Z) :
  fit_order time concentration order
  = OK (x, (slope, intercept, y, ylabel, sign_factor)) ->
  exists r,
    transform_data time concentration order
    = OK (time, y, ylabel, sign_factor) /\
    linregress time y = OK (slope, intercept, r) /\ x = square r.
Proof.
  unfold fit_order.
  destruct (transform_data time concentration order)
    as [[[[t y'] l'] s']|e] eqn:Htr; simpl; [|discriminate].
  destruct (transform_data_shape _ _ _ _ _ _ _ Htr) as [-> _].
  destruct (linregress time y') as [[[sl ic] r]|e] eqn:Hreg; simpl;
    [|discriminate].
  intros H. injection H as <- <- <- <- <- <-. eauto.
Qed.

Lemma fit_order_inv (time concentration : list R) (order : Z) (r2 : R)
  (slope intercept : R) (y : list R) (ylabel : string) (sign_factor : Z) :
  fit_order time concentration order
  = OK (Fin r2, (slope, intercept, y, ylabel, sign_factor)) ->
  exists r,
    transform_data time concentration order
    = OK (time, y, ylabel, sign_factor) /\
    linregress time y = OK (slope, intercept, Fin r) /\ r2 = r ^ 2.
Proof.
  intros H. apply fit_order_inv_ext in H.
  destruct H as (r & Htr & Hreg & Hx).
  destruct (linregress_r_cases _ _ _ _ _ Hreg) as [-> | [v ->]];
    [discriminate|].
  injection Hx as ->. eauto.
Qed.

(** C5. When all time values are identical (for sequences of one length,
    at least 2), the regression raises [DegenerateFitError] whatever [y] it
    is given, so it does for every order whose transform returned; in
    particular, with positive concentrations, every one of the three orders
    fails with [DegenerateFitError].  Every order is therefore skipped and
    the selector raises [NoValidFitError]. *)
Theorem identical_times_no_fit (time concentration : list R) :
  all_identical time ->
  length time = length concentration -> (2 <= length time)%nat ->
  (forall y, length y = length time ->
     linregress time y = Raise DegenerateFitError) /\
  (forall order t y ylabel sign_factor,
     transform_data time concentration order = OK (t, y, ylabel, sign_factor) ->
     linregress t y = Raise DegenerateFitError) /\
  (Forall (fun v => 0 < v) concentration ->
   forall order, In order orders ->
     fit_order time concentration order = Raise DegenerateFitError) /\
  (forall order, exists e, fit_order time concentration order = Raise e) /\
  determine_best_order time concentration = Raise NoValidFitError.
Proof.
  intros Hall Hlen Hn.
  assert (Hany : forall y, length y = length time ->
            linregress time y = Raise DegenerateFitError).
  { intros y Hy. apply linregress_degenerate; auto. lia. }
  assert (Hreg : forall order t y ylabel sign_factor,
     transform_data time concentration order = OK (t, y, ylabel, sign_factor) ->
     linregress t y = Raise DegenerateFitError).
  { intros order t y ylabel sign_factor Htr.
    apply transform_data_shape in Htr. destruct Htr as [-> Hy].
    apply Hany. congruence. }
  assert (Hfit : forall order,
            exists e, fit_order time concentration order = Raise e).
  { intros order. unfold fit_order.
    destruct (transform_data time concentration order)
      as [[[[t y] ylabel] sign_factor]|e] eqn:Htr; simpl; eauto.
    rewrite (Hreg _ _ _ _ _ Htr). simpl. eauto. }
  split; [exact Hany|]. split; [exact Hreg|]. split; [|split; [exact Hfit|]].
  - intros Hpos order Hin. apply any_le0_false in Hpos.
    assert (Htr : exists t y ylabel sign_factor,
              transform_data time concentration order
              = OK (t, y, ylabel, sign_factor)).
    { unfold orders in Hin. simpl in Hin.
      destruct Hin as [<- | [<- | [<- | []]]];
        unfold transform_data; simpl; try rewrite Hpos; eauto. }
    destruct Htr as (t & y & ylabel & sign_factor & Htr).
    unfold fit_order. rewrite Htr. simpl.
    now rewrite (Hreg _ _ _ _ _ Htr).
  - apply determine_raises. auto.
Qed.

Lemma identical_times_no_fit_witness :
  all_identical [5; 5; 5] /\
  (forall order, In order orders ->
     fit_order [5; 5; 5] [1; 2; 3] order = Raise DegenerateFitError) /\
  determine_best_order [5; 5; 5] [1; 2; 3] = Raise NoValidFitError.
Proof.
  assert (H : all_identical [5; 5; 5]).
  { intros a b Ha Hb. simpl in Ha, Hb.
    destruct Ha as [<- | [<- | [<- | []]]];
      destruct Hb as [<- | [<- | [<- | []]]]; reflexivity. }
  assert (Hlen : (2 <= length [5; 5; 5])%nat) by (simpl; lia).
  assert (Hpos : Forall (fun v => 0 < v) [1; 2; 3])
    by (repeat constructor; lra).
  split; [exact H|].
  destruct (identical_times_no_fit [5; 5; 5] [1; 2; 3] H eq_refl Hlen)
    as (_ & _ & Hall & _ & Hret).
  split; [exact (Hall Hpos) | exact Hret].
Defined.

(** *** Constant data *)

Lemma sum_const (a : R) (l : list R) :
  (forall v, In v l -> v = a) -> np.sum l = INR (length l) * a.
Proof.
  unfold np.sum. induction l as [|u l IH]; intros H; [simpl; ring|].
  change (length (u :: l)) with (S (length l)). rewrite S_INR.
  cbn [fold_right]. rewrite IH by (intros v Hv; apply H; now right).
  rewrite (H u) by now left. ring.
Qed.

Lemma center_identical (y : list R) :
  all_identical y -> Forall (fun v => v = 0) (np.center y).
Proof.
  intros Hall. destruct y as [|a l]; [constructor|].
  assert (Ha : forall v, In v (a :: l) -> v = a)
    by (intros v Hv; apply Hall; [exact Hv | now left]).
  assert (Hm : np.mean (a :: l) = a).
  { unfold np.mean. rewrite (sum_const a _ Ha).
    assert (INR (length (a :: l)) <> 0) by (apply not_0_INR; discriminate).
    field. assumption. }
  unfold np.center. rewrite Hm. apply Forall_forall. intros v Hv.
  apply in_map_iff in Hv. destruct Hv as (u & <- & Hu).
  rewrite (Ha u Hu). ring.
Qed.

Lemma dot_zero (a : list R) :
  Forall (fun v => v = 0) a -> np.dot a a = 0.
Proof.
  unfold np.dot, np.sum. induction 1 as [|u l Hu _ IH]; simpl; [reflexivity|].
  rewrite IH, Hu. ring.
Qed.

(** Identical values have variance zero. *)
Lemma ssym_identical (x y : list R) : all_identical y -> ssym_of x y = 0.
Proof.
  intros Hall. unfold ssym_of.
  rewrite (dot_zero _ (center_identical y Hall)). ring.
Qed.

Lemma all_identical_map (f : R -> R) (l : list R) :
  all_identical l -> all_identical (map f l).
Proof.
  intros H u v Hu Hv.
  apply in_map_iff in Hu. destruct Hu as (u' & <- & Hu).
  apply in_map_iff in Hv. destruct Hv as (v' & <- & Hv).
  now rewrite (H u' v' Hu Hv).
Qed.

(** With identical concentrations no order gives a number for r-squared:
    the correlation coefficient is nan, or the transform raises. *)
Lemma fit_order_constant (time concentration : list R) :
  all_identical concentration ->
  forall o r2 d, fit_order time concentration o <> OK (Fin r2, d).
Proof.
  intros Hall o r2 [[[[sl ic] y] l] sf] Hf.
  apply fit_order_inv in Hf. destruct Hf as (r & Htr & Hreg & _).
  apply linregress_inv in Hreg. destruct Hreg as (_ & _ & _ & Hr).
  assert (Hy : all_identical y).
  { apply transform_data_cases in Htr.
    destruct Htr as [(_ & -> & _) | [(_ & _ & -> & _) | (_ & _ & -> & _)]];
      [exact Hall | |]; now apply all_identical_map. }
  rewrite rvalue_nan in Hr by (right; now apply ssym_identical).
  discriminate.
Qed.

Lemma determine_constant (time concentration : list R) :
  all_identical concentration ->
  determine_best_order time concentration = Raise NoValidFitError.
Proof.
  intros Hall. apply determine_raises_nan. intros o r2 d _.
  now apply fit_order_constant.
Qed.

Lemma all_identical_111 : all_identical [1; 1; 1].
Proof.
  intros a b Ha Hb. simpl in Ha, Hb.
  destruct Ha as [<- | [<- | [<- | []]]];
    destruct Hb as [<- | [<- | [<- | []]]]; reflexivity.
Qed.

Lemma all_identical_00 : all_identical [0; 0].
Proof.
  intros a b Ha Hb. simpl in Ha, Hb.
  destruct Ha as [<- | [<- | []]]; destruct Hb as [<- | [<- | []]];
    reflexivity.
Qed.

Lemma two_distinct_01 : two_distinct [0; 1].
Proof. exists 0, 1. simpl. repeat split; auto; lra. Qed.

Lemma two_distinct_012 : two_distinct [0; 1; 2].
Proof. exists 0, 1. simpl. repeat split; auto; lra. Qed.

Lemma two_distinct_12 : two_distinct [1; 2].
Proof. exists 1, 2. simpl. repeat split; auto; lra. Qed.

(** With two distinct time values and two distinct concentrations order 0
    is fitted and the selector returns. *)
Lemma distinct_times_return (time concentration : list R) :
  two_distinct time -> length time = length concentration ->
  two_distinct concentration ->
  (exists r2 d, fit_order time concentration 0 = OK (Fin r2, d)) /\
  (exists o r2 d,
     determine_best_order time concentration = OK (o, Fin r2, Some d)).
Proof.
  intros Hd Hlen Hc.
  destruct (fit_order0 time concentration Hlen Hd Hc) as (r2 & d & Hf).
  destruct (determine_total time concentration 0 r2 d) as (o & b & od & Hret);
    [unfold orders; simpl; auto | exact Hf |].
  split; [eauto|].
  destruct (determine_returns _ _ _ _ _ Hret)
    as (r & d' & _ & _ & _ & _ & -> & -> & _).
  eauto.
Qed.

(** C9, as written, fails for constant concentrations.  For
    time = [0, 1, 2] and concentration = [1, 1, 1] the time sequence has
    distinct values, but the variance of every transformed [y] is zero:
    the correlation coefficient is nan, [nan > -inf] is false, no order is
    recorded and the selector raises [NoValidFitError]. *)
Lemma constant_concentration_counterexample :
  two_distinct [0; 1; 2] /\
  length [0; 1; 2] = length [1; 1; 1] /\
  (exists d, fit_order [0; 1; 2] [1; 1; 1] 0 = OK (NaN, d)) /\
  determine_best_order [0; 1; 2] [1; 1; 1] = Raise NoValidFitError.
Proof.
  split; [exact two_distinct_012|]. split; [reflexivity|]. split.
  - unfold fit_order. rewrite transform_data_order0. cbn [bind].
    rewrite (linregress_returns [0; 1; 2] [1; 1; 1] eq_refl
               (proj2 (amax_amin_distinct _) two_distinct_012)).
    rewrite rvalue_nan
      by (right; apply ssym_identical, all_identical_111).
    cbn [bind square]. eauto.
  - apply determine_constant, all_identical_111.
Qed.

(** C9 (amended). When the time sequence has two distinct values and the
    concentrations are not all identical (the two sequences having one
    length), order 0 is fitted with a number for r-squared, so the
    selector returns and does not raise [NoValidFitError]. *)
Theorem distinct_times_fit (time concentration : list R) :
  two_distinct time -> length time = length concentration ->
  two_distinct concentration ->
  (exists r2 d, fit_order time concentration 0 = OK (Fin r2, d)) /\
  (exists o r2 d,
     determine_best_order time concentration = OK (o, Fin r2, Some d)) /\
  determine_best_order time concentration <> Raise NoValidFitError.
Proof.
  intros Hd Hlen Hc.
  destruct (distinct_times_return time concentration Hd Hlen Hc)
    as [Hf (o & r2 & d & Hret)].
  split; [exact Hf|]. split; [eauto | congruence].
Qed.

Lemma distinct_times_fit_witness :
  two_distinct [0; 1] /\ two_distinct [1; 2] /\
  determine_best_order [0; 1] [1; 2] <> Raise NoValidFitError.
Proof.
  split; [exact two_distinct_01|]. split; [exact two_distinct_12|].
  apply (distinct_times_fit [0; 1] [1; 2] two_distinct_01 eq_refl
           two_distinct_12).
Defined.

Lemma fit_order_nonpositive (time concentration : list R) :
  Exists (fun v => v <= 0) concentration ->
  fit_order time concentration 1 = Raise (ValueError msg_ln) /\
  fit_order time concentration 2 = Raise (ValueError msg_inv).
Proof.
  intros Hex. apply any_le0_true in Hex.
  unfold fit_order, transform_data. simpl. rewrite Hex. auto.
Qed.

(** C10, as written, fails for constant concentrations.  For
    time = [0, 1] and concentration = [0, 0] the time sequence has distinct
    values and a concentration is <= 0; orders 1 and 2 are skipped, but
    order 0 is not recorded either (its correlation coefficient is nan),
    and the selector raises [NoValidFitError] instead of returning
    order 0. *)
Lemma constant_nonpositive_counterexample :
  two_distinct [0; 1] /\
  length [0; 1] = length [0; 0] /\
  Exists (fun v => v <= 0) [0; 0] /\
  determine_best_order [0; 1] [0; 0] = Raise NoValidFitError.
Proof.
  split; [exact two_distinct_01|]. split; [reflexivity|].
  split; [left; lra|].
  apply determine_constant, all_identical_00.
Qed.

(** C10 (amended). When the time sequence has two distinct values, some
    concentration is <= 0 and the concentrations are not all identical
    (the two sequences having one length), the transforms of orders 1 and
    2 raise [InvalidInputError], their attempts leave the state of the
    loop as it is, and the selector returns order 0 with the fit of
    order 0. *)
Theorem nonpositive_selects_order0 (time concentration : list R) :
  two_distinct time -> length time = length concentration ->
  Exists (fun v => v <= 0) concentration ->
  two_distinct concentration ->
  (exists e1 e2,
     transform_data time concentration 1 = Raise e1 /\ InvalidInputError e1 /\
     transform_data time concentration 2 = Raise e2 /\ InvalidInputError e2) /\
  (forall st,
     try_order time concentration st 1 = st /\
     try_order time concentration st 2 = st) /\
  exists r2 d,
    fit_order time concentration 0 = OK (Fin r2, d) /\
    determine_best_order time concentration = OK (0%Z, Fin r2, Some d).
Proof.
  intros Hd Hlen Hex Hc.
  destruct (fit_order_nonpositive time concentration Hex) as [H1 H2].
  split; [|split].
  - apply any_le0_true in Hex. unfold transform_data, InvalidInputError.
    simpl. rewrite Hex. eauto 8.
  - intros st. unfold try_order. now rewrite H1, H2.
  - destruct (distinct_times_return time concentration Hd Hlen Hc)
      as (_ & (o & r2 & d & Hret)).
    destruct (determine_returns _ _ _ _ _ Hret)
      as (r & d' & bef & aft & Heq & Hf & Hb & Hd' & _).
    injection Hb as <-. injection Hd' as <-.
    destruct (orders_split _ _ _ Heq)
      as [(-> & _) | [(-> & _) | (-> & _)]]; try congruence.
    eauto.
Qed.

Lemma nonpositive_selects_order0_witness :
  two_distinct [0; 1] /\ Exists (fun v => v <= 0) [0; 1] /\
  exists r2 d,
    fit_order [0; 1] [0; 1] 0 = OK (Fin r2, d) /\
    determine_best_order [0; 1] [0; 1] = OK (0%Z, Fin r2, Some d).
Proof.
  assert (Hex : Exists (fun v => v <= 0) [0; 1]) by (left; lra).
  split; [exact two_distinct_01|]. split; [exact Hex|].
  apply (nonpositive_selects_order0 [0; 1] [0; 1] two_distinct_01 eq_refl Hex
           two_distinct_01).
Defined.

(** ** Least squares *)

Lemma dot_center_cross (a b : R) : forall x y : list R,
  np.dot (map (fun v => v - a) x) (map (fun v => v - b) y)
  = np.sum (map (fun p => (fst p - a) * (snd p - b)) (combine x y)).
Proof.
  unfold np.dot.
  induction x as [|u x IH]; intros [|v y]; simpl; try reflexivity.
  now rewrite IH.
Qed.

Lemma dot_center_self (a : R) : forall x : list R,
  np.dot (map (fun v => v - a) x) (map (fun v => v - a) x)
  = np.sum (map (fun v => (v - a) ^ 2) x).
Proof.
  unfold np.dot. induction x as [|u x IH]; simpl; [reflexivity|].
  rewrite IH. simpl. ring.
Qed.

Lemma scaled_quotient (A B s : R) : s <> 0 -> (A * s) / (B * s) = A / B.
Proof.
  intros Hs. destruct (Req_dec B 0) as [-> | HB].
  - unfold Rdiv. rewrite Rmult_0_l, Rinv_0. ring.
  - field. auto.
Qed.

(** The slope and intercept of [linregress] are the closed form of the
    specification. *)
Lemma slope_is_ols (x y : list R) :
  length x <> 0%nat -> ssxym_of x y / ssxm_of x = ols_slope x y.
Proof.
  intros Hx. unfold ssxym_of, ssxm_of, ols_slope, np.center.
  rewrite dot_center_cross, dot_center_self.
  apply scaled_quotient.
  assert (INR (length x) <> 0) by now apply not_0_INR.
  unfold Rdiv. rewrite Rmult_1_l. now apply Rinv_neq_0_compat.
Qed.

(** C6. For an order whose transform returned [(t, y, ...)], with time
    values that are not all identical (and sequences of one length), the
    regression returns, and its slope and intercept are the least-squares
    closed form: slope = sum (t_i - tbar)(y_i - ybar) / sum (t_i - tbar)^2
    and intercept = ybar - slope * tbar; these are the slope and intercept
    recorded for that order. *)
Theorem regression_is_least_squares (time concentration : list R) (order : Z)
  (t y : list R) (ylabel : string) (sign_factor : Z) :
  transform_data time concentration order = OK (t, y, ylabel, sign_factor) ->
  two_distinct time -> length time = length concentration ->
  exists r,
    linregress t y = OK (ols_slope t y, ols_intercept t y, r) /\
    fit_order time concentration order
    = OK (square r,
          (ols_slope t y, ols_intercept t y, y, ylabel, sign_factor)).
Proof.
  intros Htr Hd Hlen.
  destruct (transform_data_shape _ _ _ _ _ _ _ Htr) as [-> Hy].
  assert (Hxy : length time = length y) by congruence.
  assert (Hx : length time <> 0%nat)
    by (apply two_distinct_length in Hd; lia).
  apply amax_amin_distinct in Hd.
  exists (rvalue (ssxm_of time) (ssxym_of time y) (ssym_of time y)).
  assert (Hreg : linregress time y =
    OK (ols_slope time y, ols_intercept time y,
        rvalue (ssxm_of time) (ssxym_of time y) (ssym_of time y))).
  { rewrite (linregress_returns _ _ Hxy Hd). unfold ols_intercept.
    now rewrite (slope_is_ols _ _ Hx). }
  split; [exact Hreg|].
  unfold fit_order. rewrite Htr. simpl. rewrite Hreg. reflexivity.
Qed.

Lemma regression_is_least_squares_witness :
  two_distinct [0; 1] /\
  exists r,
    linregress [0; 1] [1; 2]
    = OK (ols_slope [0; 1] [1; 2], ols_intercept [0; 1] [1; 2], r) /\
    fit_order [0; 1] [1; 2] 0
    = OK (square r, (ols_slope [0; 1] [1; 2], ols_intercept [0; 1] [1; 2],
                     [1; 2], "[A] (M)"%string, (-1)%Z)).
Proof.
  split; [exact two_distinct_01|].
  apply (regression_is_least_squares [0; 1] [1; 2] 0 [0; 1] [1; 2]
           "[A] (M)"%string (-1)%Z eq_refl two_distinct_01 eq_refl).
Defined.

(** ** A perfect fit *)

(** When the squared covariance equals the product of the variances the
    points lie on a line, and r-squared is 1. *)
Lemma r_value_of_perfect (ssxm ssxym ssym : R) :
  0 < ssxm -> 0 < ssym -> ssxym * ssxym = ssxm * ssym ->
  r_value_of ssxm ssxym ssym ^ 2 = 1.
Proof.
  intros Hx Hy Hsq. unfold r_value_of. cbv zeta.
  rewrite <- Hsq. fold (Rsqr ssxym). rewrite sqrt_Rsqr_abs.
  assert (Hne : ssxym <> 0) by (intros ->; nra).
  assert (Hq : ssxym / Rabs ssxym = 1 \/ ssxym / Rabs ssxym = -1).
  { unfold Rabs. destruct (Rcase_abs ssxym); [right | left]; field; lra. }
  destruct Hq as [-> | ->].
  - assert (E1 : Rgtb 1 1 = false) by (apply Rgtb_false; lra).
    assert (E2 : Rltb 1 (-1) = false) by (apply Rltb_false; lra).
    rewrite E1, E2. ring.
  - assert (E1 : Rgtb (-1) 1 = false) by (apply Rgtb_false; lra).
    assert (E2 : Rltb (-1) (-1) = false) by (apply Rltb_false; lra).
    rewrite E1, E2. ring.
Qed.

Lemma rvalue_perfect (ssxm ssxym ssym : R) :
  0 < ssxm -> 0 < ssym -> ssxym * ssxym = ssxm * ssym ->
  square (rvalue ssxm ssxym ssym) = Fin 1.
Proof.
  intros Hx Hy Hsq. rewrite rvalue_fin by lra. rewrite square_fin.
  now rewrite r_value_of_perfect.
Qed.

Lemma fit_order0_eq (time concentration : list R) :
  length time = length concentration -> np.amax time <> np.amin time ->
  fit_order time concentration 0 =
  OK (square (rvalue (ssxm_of time) (ssxym_of time concentration)
                     (ssym_of time concentration)),
      (ssxym_of time concentration / ssxm_of time,
       np.mean concentration
       - ssxym_of time concentration / ssxm_of time * np.mean time,
       concentration, "[A] (M)"%string, (-1)%Z)).
Proof.
  intros Hlen Hne. unfold fit_order.
  rewrite transform_data_order0. simpl.
  rewrite (linregress_returns _ _ Hlen Hne). reflexivity.
Qed.

(** An order-0 fit with r-squared 1 cannot be beaten: it is returned. *)
Lemma determine_first_perfect (time concentration : list R) (d : details) :
  fit_order time concentration 0 = OK (Fin 1, d) ->
  determine_best_order time concentration = OK (0%Z, Fin 1, Some d).
Proof.
  intros Hf.
  destruct (determine_total time concentration 0 1 d) as (o & b & od & Hret);
    [unfold orders; simpl; auto | exact Hf |].
  rewrite Hret.
  destruct (determine_returns _ _ _ _ _ Hret)
    as (r & d' & bef & aft & Heq & Hfo & -> & -> & Hlt & _).
  pose proof (fit_order_r2_range _ _ _ _ _ Hfo) as Hr.
  destruct (orders_split _ _ _ Heq)
    as [(-> & _) | [(-> & -> & _) | (-> & -> & _)]].
  - rewrite Hf in Hfo. injection Hfo as <- <-. reflexivity.
  - exfalso. assert (1 < r) by (eapply Hlt; [|exact Hf]; simpl; auto). lra.
  - exfalso. assert (1 < r) by (eapply Hlt; [|exact Hf]; simpl; auto). lra.
Qed.

(** C2. For time = [0, 10, 20, 30] and concentration = [1.0, 0.8, 0.6, 0.4]
    the selector returns order 0 with r-squared 1, slope -0.02, intercept 1
    and sign factor -1, so the rate constant sign_factor * slope is 0.02.
    On real numbers the values are exact, hence within every tolerance. *)
Theorem zero_order_decay_example :
  determine_best_order [0; 10; 20; 30] [1; 0.8; 0.6; 0.4]
  = OK (0%Z, Fin 1,
        Some (-0.02, 1, [1; 0.8; 0.6; 0.4], "[A] (M)"%string, (-1)%Z)) /\
  rate_constant (-1) (-0.02) = 0.02.
Proof.
  split; [|unfold rate_constant; lra].
  apply determine_first_perfect.
  rewrite fit_order0_eq; [|reflexivity|].
  - assert (Hxx : ssxm_of [0; 10; 20; 30] = 125) by (unfold_stats; lra).
    assert (Hxy : ssxym_of [0; 10; 20; 30] [1; 0.8; 0.6; 0.4] = -2.5)
      by (unfold_stats; lra).
    assert (Hyy : ssym_of [0; 10; 20; 30] [1; 0.8; 0.6; 0.4] = 0.05)
      by (unfold_stats; lra).
    assert (Hmt : np.mean [0; 10; 20; 30] = 15) by (unfold_stats; lra).
    assert (Hmy : np.mean [1; 0.8; 0.6; 0.4] = 0.7) by (unfold_stats; lra).
    rewrite Hxx, Hxy, Hyy, Hmt, Hmy.
    rewrite rvalue_perfect by lra.
    replace (-2.5 / 125) with (-0.02) by lra.
    replace (0.7 - -0.02 * 15) with 1 by lra.
    reflexivity.
  - apply amax_amin_distinct. exists 0, 10. simpl. repeat split; auto; lra.
Qed.

(** ** A tie *)

Lemma fit_order_eq (time concentration : list R) (order : Z)
  (t y : list R) (ylabel : string) (sign_factor : Z) :
  transform_data time concentration order = OK (t, y, ylabel, sign_factor) ->
  length t = length y -> np.amax t <> np.amin t ->
  fit_order time concentration order =
  OK (square (rvalue (ssxm_of t) (ssxym_of t y) (ssym_of t y)),
      (ssxym_of t y / ssxm_of t,
       np.mean y - ssxym_of t y / ssxm_of t * np.mean t,
       y, ylabel, sign_factor)).
Proof.
  intros Htr Hlen Hne. unfold fit_order. rewrite Htr. simpl.
  rewrite (linregress_returns _ _ Hlen Hne). reflexivity.
Qed.

Lemma amax_amin_01 : np.amax [0; 1] <> np.amin [0; 1].
Proof. apply amax_amin_distinct, two_distinct_01. Qed.

(** Two points with distinct concentrations lie on a line under every
    transform: for time = [0, 1] and concentration = [1, 2] orders 0 and 2
    both reach r-squared 1, and the selector returns order 0. *)
Lemma tie_orders_0_2 :
  exists d0 d2,
    fit_order [0; 1] [1; 2] 0 = OK (Fin 1, d0) /\
    fit_order [0; 1] [1; 2] 2 = OK (Fin 1, d2) /\
    determine_best_order [0; 1] [1; 2] = OK (0%Z, Fin 1, Some d0).
Proof.
  assert (H0 : exists d0, fit_order [0; 1] [1; 2] 0 = OK (Fin 1, d0)).
  { rewrite (fit_order0_eq [0; 1] [1; 2] eq_refl amax_amin_01).
    rewrite rvalue_perfect; [eauto | | |]; unfold_stats; lra. }
  assert (H2 : exists d2, fit_order [0; 1] [1; 2] 2 = OK (Fin 1, d2)).
  { assert (Htr : transform_data [0; 1] [1; 2] 2
                  = OK ([0; 1], [1 / 1; 1 / 2], "1/[A] (1/M)"%string, 1%Z)).
    { unfold transform_data. simpl.
      assert (E1 : Rleb 1 0 = false) by (apply Rleb_false; lra).
      assert (E2 : Rleb 2 0 = false) by (apply Rleb_false; lra).
      now rewrite E1, E2. }
    rewrite (fit_order_eq _ _ _ _ _ _ _ Htr eq_refl amax_amin_01).
    rewrite rvalue_perfect; [eauto | | |]; unfold_stats; lra. }
  destruct H0 as [d0 H0], H2 as [d2 H2]. exists d0, d2.
  repeat split; auto. now apply determine_first_perfect.
Qed.

Lemma determine_best_order_tie_break_witness :
  exists d,
    determine_best_order [0; 1] [1; 2] = OK (0%Z, Fin 1, Some d) /\
    forall o' r2' d', In o' orders ->
      fit_order [0; 1] [1; 2] o' = OK (Fin r2', d') ->
      r2' <= 1 /\ (r2' = 1 -> (0 <= o')%Z).
Proof.
  destruct tie_orders_0_2 as (d0 & _ & _ & _ & Hret).
  exists d0. split; [exact Hret|].
  destruct (determine_best_order_tie_break [0; 1] [1; 2] _ _ _ Hret)
    as [(r2 & d & Hb & _ & _ & Hmax) _].
  injection Hb as <-. exact Hmax.
Defined.

(** ** The correlation coefficient *)

(** The library clips [r] to [-1, 1] against rounding.  On real numbers
    the Cauchy-Schwarz inequality already bounds it, so the clipping never
    acts and [r] is the covariance over the product of the standard
    deviations, as the specification writes it. *)

Section Pearson.

Lemma dot_quadratic (x : R) : forall a b : list R,
  length a = length b ->
  np.sum (map (fun p => (fst p * x + snd p) ^ 2) (combine a b))
  = np.dot a a * x * x + 2 * np.dot a b * x + np.dot b b.
Proof.
  unfold np.dot.
  induction a as [|u a IH]; intros [|v b] Hlen; simpl in *;
    try discriminate; [ring|].
  injection Hlen as Hlen. specialize (IH b Hlen). simpl in IH.
  rewrite IH. ring.
Qed.

Lemma sum_squares_nonneg (f : R * R -> R) (l : list (R * R)) :
  0 <= np.sum (map (fun p => f p ^ 2) l).
Proof.
  induction l as [|p l IH]; simpl in *; [lra|].
  pose proof (pow2_ge_0 (f p)) as Hp. simpl in Hp. lra.
Qed.

Lemma discriminant_nonpos (A B C : R) :
  0 <= A -> (forall x, 0 <= A * x * x + 2 * B * x + C) -> B * B <= A * C.
Proof.
  intros HA H. destruct (Req_dec A 0) as [-> | HA0].
  - destruct (Req_dec B 0) as [-> | HB]; [lra|].
    exfalso. specialize (H (- (C + 1) / (2 * B))).
    replace (0 * (- (C + 1) / (2 * B)) * (- (C + 1) / (2 * B)) +
             2 * B * (- (C + 1) / (2 * B)) + C) with (-1) in H
      by (field; lra).
    lra.
  - specialize (H (- B / A)).
    replace (A * (- B / A) * (- B / A) + 2 * B * (- B / A) + C)
      with ((A * C - B * B) / A) in H by (field; lra).
    assert (Hm : 0 <= (A * C - B * B) / A * A)
      by (apply Rmult_le_pos; lra).
    replace ((A * C - B * B) / A * A) with (A * C - B * B) in Hm
      by (field; lra).
    lra.
Qed.

Lemma cauchy_schwarz (a b : list R) :
  length a = length b ->
  np.dot a b * np.dot a b <= np.dot a a * np.dot b b.
Proof.
  intros Hlen. apply discriminant_nonpos; [apply dot_self_nonneg|].
  intros x. rewrite <- (dot_quadratic x a b Hlen).
  apply (sum_squares_nonneg (fun p => fst p * x + snd p)).
Qed.

Lemma covariance_bound (x y : list R) :
  length x = length y ->
  ssxym_of x y * ssxym_of x y <= ssxm_of x * ssym_of x y.
Proof.
  intros Hlen. unfold ssxym_of, ssxm_of, ssym_of.
  assert (Hc : length (np.center x) = length (np.center y))
    by (unfold np.center; now rewrite !length_map).
  pose proof (cauchy_schwarz _ _ Hc) as Hcs.
  set (k := 1 / INR (length x)).
  assert (Hk : 0 <= k * k) by nra.
  nra.
Qed.

Lemma ratio_range (B s : R) :
  0 < s -> B * B <= s * s -> -1 <= B / s <= 1.
Proof.
  intros Hs Hb. assert (HB : - s <= B <= s) by nra.
  split; apply Rmult_le_reg_r with s; try exact Hs; unfold Rdiv;
    rewrite Rmult_assoc, Rinv_l by lra; lra.
Qed.

Lemma r_value_of_unclipped (ssxm ssxym ssym : R) :
  0 < ssxm -> 0 < ssym -> ssxym * ssxym <= ssxm * ssym ->
  r_value_of ssxm ssxym ssym = ssxym / sqrt (ssxm * ssym).
Proof.
  intros Hx Hy Hsq. unfold r_value_of. cbv zeta.
  assert (Hp : 0 < ssxm * ssym) by now apply Rmult_lt_0_compat.
  assert (Hs : 0 < sqrt (ssxm * ssym)) by now apply sqrt_lt_R0.
  assert (Hss : sqrt (ssxm * ssym) * sqrt (ssxm * ssym) = ssxm * ssym)
    by (apply sqrt_sqrt; lra).
  destruct (ratio_range ssxym (sqrt (ssxm * ssym)) Hs) as [Hlo Hhi];
    [lra|].
  assert (E1 : Rgtb (ssxym / sqrt (ssxm * ssym)) 1 = false)
    by now apply Rgtb_false.
  assert (E2 : Rltb (ssxym / sqrt (ssxm * ssym)) (-1) = false)
    by now apply Rltb_false.
  now rewrite E1, E2.
Qed.

(** What [linregress] returns as [r] is the Pearson coefficient of the
    specification whenever both variances are non-zero, and nan
    otherwise. *)
Lemma linregress_pearson (x y : list R) (slope intercept : R) (r : ext_real) :
  linregress x y = OK (slope, intercept, r) ->
  (ssxm_of x <> 0 -> ssym_of x y <> 0 ->
   r = Fin (ssxym_of x y / sqrt (ssxm_of x * ssym_of x y))) /\
  (ssxm_of x = 0 \/ ssym_of x y = 0 -> r = NaN).
Proof.
  intros H.
  destruct (linregress_inv _ _ _ _ _ H) as (Hlen & _ & _ & ->).
  split; [|apply rvalue_nan].
  intros Hx Hy. rewrite rvalue_fin by assumption. f_equal.
  assert (0 <= ssxm_of x).
  { unfold ssxm_of. apply Rmult_le_pos; [apply dot_self_nonneg|].
    unfold Rdiv. rewrite Rmult_1_l.
    destruct (length x); [simpl; rewrite Rinv_0; lra|].
    left. apply Rinv_0_lt_compat, lt_0_INR. lia. }
  assert (0 <= ssym_of x y).
  { unfold ssym_of. apply Rmult_le_pos; [apply dot_self_nonneg|].
    unfold Rdiv. rewrite Rmult_1_l.
    destruct (length x); [simpl; rewrite Rinv_0; lra|].
    left. apply Rinv_0_lt_compat, lt_0_INR. lia. }
  apply r_value_of_unclipped; try lra. now apply covariance_bound.
Qed.

End Pearson.

(** ** A tie below the best *)

Lemma transform_data_order1 (time concentration : list R) :
  Forall (fun v => 0 < v) concentration ->
  transform_data time concentration 1
  = OK (time, np.log concentration, "ln[A]"%string, (-1)%Z).
Proof.
  intros H. apply any_le0_false in H. unfold transform_data. simpl.
  now rewrite H.
Qed.

Lemma transform_data_order2 (time concentration : list R) :
  Forall (fun v => 0 < v) concentration ->
  transform_data time concentration 2
  = OK (time, np.reciprocal concentration, "1/[A] (1/M)"%string, 1%Z).
Proof.
  intros H. apply any_le0_false in H. unfold transform_data. simpl.
  now rewrite H.
Qed.

Lemma r_value_of_sq (ssxm ssxym ssym : R) :
  0 < ssxm -> 0 < ssym -> ssxym * ssxym <= ssxm * ssym ->
  r_value_of ssxm ssxym ssym ^ 2 = ssxym * ssxym / (ssxm * ssym).
Proof.
  intros Hx Hy Hsq. rewrite r_value_of_unclipped by assumption.
  assert (Hp : 0 < ssxm * ssym) by now apply Rmult_lt_0_compat.
  assert (Hs : 0 < sqrt (ssxm * ssym)) by now apply sqrt_lt_R0.
  rewrite <- (sqrt_sqrt (ssxm * ssym)) at 2 by lra.
  field. lra.
Qed.

Lemma rvalue_sq (ssxm ssxym ssym : R) :
  0 < ssxm -> 0 < ssym -> ssxym * ssxym <= ssxm * ssym ->
  square (rvalue ssxm ssxym ssym) = Fin (ssxym * ssxym / (ssxm * ssym)).
Proof.
  intros Hx Hy Hsq. rewrite rvalue_fin by lra. rewrite square_fin.
  now rewrite r_value_of_sq.
Qed.

(** An order-1 fit with r-squared 1 is returned when order 0 stays below. *)
Lemma determine_second_perfect (time concentration : list R)
  (r0 : R) (d0 d1 : details) :
  fit_order time concentration 0 = OK (Fin r0, d0) -> r0 < 1 ->
  fit_order time concentration 1 = OK (Fin 1, d1) ->
  determine_best_order time concentration = OK (1%Z, Fin 1, Some d1).
Proof.
  intros H0 Hlt H1.
  destruct (determine_total time concentration 1 1 d1) as (o & b & od & Hret);
    [unfold orders; simpl; auto | exact H1 |].
  rewrite Hret.
  destruct (determine_returns _ _ _ _ _ Hret)
    as (r & d' & bef & aft & Heq & Hfo & -> & -> & Hbef & Haft).
  pose proof (fit_order_r2_range _ _ _ _ _ Hfo) as Hr.
  destruct (orders_split _ _ _ Heq)
    as [(-> & _ & ->) | [(-> & _) | (-> & -> & _)]].
  - exfalso. rewrite H0 in Hfo. injection Hfo as <- _.
    assert (1 <= r0) by (eapply Haft; [|exact H1]; simpl; auto). lra.
  - rewrite H1 in Hfo. injection Hfo as <- <-. reflexivity.
  - exfalso. assert (1 < r) by (eapply Hbef; [|exact H1]; simpl; auto). lra.
Qed.

Lemma positive_8421 : Forall (fun v => 0 < v) [8; 4; 2; 1].
Proof. repeat constructor; lra. Qed.

Lemma amax_amin_0123 : np.amax [0; 1; 2; 3] <> np.amin [0; 1; 2; 3].
Proof.
  apply amax_amin_distinct. exists 0, 1. simpl. repeat split; auto; lra.
Qed.

Lemma log_8421 : np.log [8; 4; 2; 1] = [3 * ln 2; 2 * ln 2; ln 2; 0].
Proof.
  unfold np.log. simpl.
  assert (H4 : ln 4 = 2 * ln 2).
  { replace 4 with (2 * 2) by lra. rewrite ln_mult by lra. ring. }
  assert (H8 : ln 8 = 3 * ln 2).
  { replace 8 with (2 * 4) by lra. rewrite ln_mult, H4 by lra. ring. }
  now rewrite H4, H8, ln_1.
Qed.

(** C3, as written, fails when the tie is below the best r-squared.  For
    time = [0, 1, 2, 3] and concentration = [8, 4, 2, 1] (a halving at
    every step) orders 0 and 2 yield exactly the same r-squared, 0.92,
    while order 1 fits perfectly: the selector returns order 1, which is
    neither of the two tied orders. *)
Lemma tie_below_best_counterexample :
  exists d0 d1 d2,
    fit_order [0; 1; 2; 3] [8; 4; 2; 1] 0 = OK (Fin 0.92, d0) /\
    fit_order [0; 1; 2; 3] [8; 4; 2; 1] 1 = OK (Fin 1, d1) /\
    fit_order [0; 1; 2; 3] [8; 4; 2; 1] 2 = OK (Fin 0.92, d2) /\
    determine_best_order [0; 1; 2; 3] [8; 4; 2; 1] = OK (1%Z, Fin 1, Some d1).
Proof.
  assert (Hxx : ssxm_of [0; 1; 2; 3] = 1.25) by (unfold_stats; lra).
  assert (H0 : exists d0,
            fit_order [0; 1; 2; 3] [8; 4; 2; 1] 0 = OK (Fin 0.92, d0)).
  { rewrite (fit_order0_eq [0; 1; 2; 3] [8; 4; 2; 1] eq_refl amax_amin_0123).
    assert (Hxy : ssxym_of [0; 1; 2; 3] [8; 4; 2; 1] = -2.875)
      by (unfold_stats; lra).
    assert (Hyy : ssym_of [0; 1; 2; 3] [8; 4; 2; 1] = 7.1875)
      by (unfold_stats; lra).
    rewrite Hxx, Hxy, Hyy. rewrite rvalue_sq by lra.
    replace (-2.875 * -2.875 / (1.25 * 7.1875)) with 0.92 by lra. eauto. }
  assert (H1 : exists d1,
            fit_order [0; 1; 2; 3] [8; 4; 2; 1] 1 = OK (Fin 1, d1)).
  { pose proof (transform_data_order1 [0; 1; 2; 3] _ positive_8421) as Htr.
    rewrite log_8421 in Htr.
    rewrite (fit_order_eq _ _ _ _ _ _ _ Htr eq_refl amax_amin_0123).
    assert (HL : 0 < ln 2) by (rewrite <- ln_1; apply ln_increasing; lra).
    assert (Hxy : ssxym_of [0; 1; 2; 3] [3 * ln 2; 2 * ln 2; ln 2; 0]
                  = -1.25 * ln 2) by (unfold_stats; lra).
    assert (Hyy : ssym_of [0; 1; 2; 3] [3 * ln 2; 2 * ln 2; ln 2; 0]
                  = 5 / 4 * (ln 2 * ln 2)) by (unfold_stats; field).
    rewrite Hxx, Hxy, Hyy.
    rewrite rvalue_perfect; [eauto | lra | nra | lra]. }
  assert (H2 : exists d2,
            fit_order [0; 1; 2; 3] [8; 4; 2; 1] 2 = OK (Fin 0.92, d2)).
  { pose proof (transform_data_order2 [0; 1; 2; 3] _ positive_8421) as Htr.
    simpl in Htr.
    rewrite (fit_order_eq _ _ _ _ _ _ _ Htr eq_refl amax_amin_0123).
    assert (Hxy : ssxym_of [0; 1; 2; 3] [1 / 8; 1 / 4; 1 / 2; 1 / 1]
                  = 0.359375) by (unfold_stats; lra).
    assert (Hyy : ssym_of [0; 1; 2; 3] [1 / 8; 1 / 4; 1 / 2; 1 / 1]
                  = 0.1123046875) by (unfold_stats; lra).
    rewrite Hxx, Hxy, Hyy. rewrite rvalue_sq by lra.
    replace (0.359375 * 0.359375 / (1.25 * 0.1123046875)) with 0.92 by lra.
    eauto. }
  destruct H0 as [d0 H0], H1 as [d1 H1], H2 as [d2 H2].
  exists d0, d1, d2. repeat split; auto.
  apply (determine_second_perfect _ _ 0.92 d0 d1); auto. lra.
Qed.

(** ** Scaled arrays *)

Lemma dot_scale_r (a : R) : forall x y : list R,
  np.dot x (map (fun v => a * v) y) = a * np.dot x y.
Proof.
  unfold np.dot, np.sum.
  induction x as [|u x IH]; intros [|v y]; simpl; try ring.
  rewrite IH. ring.
Qed.

Lemma dot_scale_l (a : R) : forall x y : list R,
  np.dot (map (fun v => a * v) x) y = a * np.dot x y.
Proof.
  unfold np.dot, np.sum.
  induction x as [|u x IH]; intros [|v y]; simpl; try ring.
  rewrite IH. ring.
Qed.

(** * Further properties *)

(** ** What an attempt is made of *)

(** X1. The linearisation loses nothing: whenever [transform_data]
    returns, the concentrations are recovered from [y] by the inverse of
    the order's transform (identity, exponential, reciprocal). *)
Theorem transform_data_round_trip (time concentration : list R) (order : Z)
  (t y : list R) (ylabel : string) (sign_factor : Z) :
  transform_data time concentration order = OK (t, y, ylabel, sign_factor) ->
  untransform order y = concentration.
Proof.
  intros H. apply transform_data_cases in H.
  destruct H as [(-> & -> & _) | [(-> & Hpos & -> & _) | (-> & Hpos & -> & _)]];
    unfold untransform; simpl; [reflexivity | |].
  - induction Hpos as [|c l Hc _ IH]; simpl; [reflexivity|].
    now rewrite IH, exp_ln.
  - induction Hpos as [|c l Hc _ IH]; simpl; [reflexivity|].
    rewrite IH. f_equal. field. lra.
Qed.

Lemma transform_data_round_trip_witness :
  untransform 2 [1 / 2; 1 / 4] = [2; 4].
Proof.
  apply (transform_data_round_trip [0; 1] [2; 4] 2 [0; 1] [1 / 2; 1 / 4]
           "1/[A] (1/M)"%string 1%Z).
  apply (transform_data_order2 [0; 1] [2; 4]). repeat constructor; lra.
Defined.

(** X2. What the selector returns belongs to one order: the returned [y],
    label and sign factor are those of the returned order's transform of
    the input, the slope and intercept are the regression of that [y]
    against the input times, and the r-squared is the square of that
    regression's [r].  Orders 1 and 2 are only returned for positive
    concentrations. *)
Theorem determine_best_order_consistent (time concentration : list R)
  (o : Z) (b : ext_real) (od : option details) :
  determine_best_order time concentration = OK (o, b, od) ->
  exists slope intercept y ylabel sign_factor r,
    od = Some (slope, intercept, y, ylabel, sign_factor) /\
    b = Fin (r ^ 2) /\
    linregress time y = OK (slope, intercept, Fin r) /\
    length y = length time /\
    ((o = 0%Z /\ y = concentration /\
      ylabel = "[A] (M)"%string /\ sign_factor = (-1)%Z) \/
     (o = 1%Z /\ Forall (fun v => 0 < v) concentration /\
      y = map ln concentration /\
      ylabel = "ln[A]"%string /\ sign_factor = (-1)%Z) \/
     (o = 2%Z /\ Forall (fun v => 0 < v) concentration /\
      y = map (fun c => 1 / c) concentration /\
      ylabel = "1/[A] (1/M)"%string /\ sign_factor = 1%Z)).
Proof.
  intros H. apply determine_returns in H.
  destruct H as (r2 & [[[[slope intercept] y] ylabel] sign_factor]
                 & _ & _ & _ & Hf & -> & -> & _).
  apply fit_order_inv in Hf. destruct Hf as (r & Htr & Hreg & ->).
  exists slope, intercept, y, ylabel, sign_factor, r.
  repeat split; auto.
  - apply linregress_inv in Hreg. symmetry. apply Hreg.
  - eapply transform_data_cases, Htr.
Qed.

Lemma determine_best_order_consistent_witness :
  exists slope intercept y r,
    linregress [0; 1] y = OK (slope, intercept, Fin r) /\
    length y = length [0; 1] /\ Fin 1 = Fin (r ^ 2).
Proof.
  destruct tie_orders_0_2 as (d0 & _ & _ & _ & Hret).
  destruct (determine_best_order_consistent _ _ _ _ _ Hret)
    as (slope & intercept & y & ylabel & sign_factor & r
        & _ & H2 & H3 & H4 & _).
  exists slope, intercept, y, r. auto.
Defined.

(** ** When the selector fails *)

(** X3. The selector raises [NoValidFitError] exactly when no order gave
    a number for r-squared: each of the three attempts either raised and
    was skipped, or gave nan, which the comparison [r2 > best_r2] never
    records.  In every other case some order is returned. *)
Theorem determine_best_order_raises_iff (time concentration : list R) :
  determine_best_order time concentration = Raise NoValidFitError <->
  forall o, In o orders ->
    (exists e, fit_order time concentration o = Raise e) \/
    (exists d, fit_order time concentration o = OK (NaN, d)).
Proof.
  split.
  - intros Hraise o Hin.
    destruct (fit_order time concentration o) as [[x d]|e] eqn:Hf;
      [|left; eauto].
    destruct (fit_order_r2_cases _ _ _ _ _ Hf) as [-> | [r2 ->]];
      [right; eauto|].
    destruct (determine_total time concentration o r2 d Hin Hf)
      as (o' & b & od & Hret).
    congruence.
  - intros Hall. apply determine_raises_nan. intros o r2 d Hin Hf.
    destruct (Hall o Hin) as [[e He] | [d' Hd]]; congruence.
Qed.

(** X4. A single sample is refused: with one time value and one
    concentration the variance of the times is zero, no order gives a
    number for r-squared, and the selector raises [NoValidFitError]. *)
Theorem single_sample_no_fit (t c : R) :
  determine_best_order [t] [c] = Raise NoValidFitError.
Proof.
  apply determine_raises_nan.
  intros o r2 [[[[slope intercept] y] ylabel] sign_factor] _ Hf.
  apply fit_order_inv in Hf. destruct Hf as (r & _ & Hreg & _).
  apply linregress_inv in Hreg. destruct Hreg as (_ & _ & _ & Hr).
  rewrite rvalue_nan in Hr; [discriminate|].
  left. unfold_stats. field.
Qed.

(** ** Data that follow an integrated rate law *)

Section Affine.

Variables (a b : R).

Lemma sum_affine (time : list R) :
  np.sum (map (fun t => a + b * t) time)
  = INR (length time) * a + b * np.sum time.
Proof.
  unfold np.sum. induction time as [|t time IH]; [simpl; ring|].
  cbn [map fold_right]. rewrite IH.
  change (length (t :: time)) with (S (length time)). rewrite S_INR. ring.
Qed.

Lemma mean_affine (time : list R) :
  time <> [] ->
  np.mean (map (fun t => a + b * t) time) = a + b * np.mean time.
Proof.
  intros Hne. unfold np.mean. rewrite sum_affine, length_map.
  assert (INR (length time) <> 0).
  { apply not_0_INR. destruct time; [congruence | discriminate]. }
  field. assumption.
Qed.

Lemma center_affine (time : list R) :
  time <> [] ->
  np.center (map (fun t => a + b * t) time)
  = map (fun v => b * v) (np.center time).
Proof.
  intros Hne. unfold np.center. rewrite (mean_affine time Hne), !map_map.
  apply map_ext. intros t. ring.
Qed.

(** An order whose transformed data lie on the line [a + b * t] is fitted
    with r-squared 1, slope [b] and intercept [a]. *)
Lemma fit_order_affine (time concentration : list R) (order : Z)
  (y : list R) (ylabel : string) (sign_factor : Z) :
  transform_data time concentration order
  = OK (time, y, ylabel, sign_factor) ->
  y = map (fun t => a + b * t) time ->
  two_distinct time -> b <> 0 ->
  fit_order time concentration order
  = OK (Fin 1, (b, a, y, ylabel, sign_factor)).
Proof.
  intros Htr Hy Hd Hb.
  pose proof (ssxm_positive time Hd) as Hxx.
  assert (Hne : time <> []).
  { apply two_distinct_length in Hd. destruct time; [simpl in Hd; lia|].
    discriminate. }
  assert (Hxy : ssxym_of time y = b * ssxm_of time).
  { subst y. unfold ssxym_of, ssxm_of.
    rewrite (center_affine time Hne), dot_scale_r. ring. }
  assert (Hyy : ssym_of time y = b * b * ssxm_of time).
  { subst y. unfold ssym_of, ssxm_of.
    rewrite (center_affine time Hne), dot_scale_r, dot_scale_l. ring. }
  assert (Hmy : np.mean y = a + b * np.mean time)
    by (subst y; now apply mean_affine).
  assert (Hbb : 0 < b * b) by (destruct (Rtotal_order b 0) as [|[|]]; nra).
  rewrite (fit_order_eq _ _ _ _ _ _ _ Htr);
    [|subst y; now rewrite length_map | now apply amax_amin_distinct].
  rewrite Hmy, Hxy, Hyy.
  rewrite rvalue_perfect; [|lra | now apply Rmult_lt_0_compat | ring].
  replace (b * ssxm_of time / ssxm_of time) with b by (field; lra).
  replace (a + b * np.mean time - b * np.mean time) with a by ring.
  reflexivity.
Qed.

End Affine.

Lemma first_order_positive (c0 k : R) (time : list R) :
  0 < c0 -> Forall (fun v => 0 < v) (map (first_order_law c0 k) time).
Proof.
  intros Hc. apply Forall_forall. intros v Hin.
  apply in_map_iff in Hin. destruct Hin as (t & <- & _).
  unfold first_order_law. apply Rmult_lt_0_compat; [exact Hc | apply exp_pos].
Qed.

Lemma second_order_positive (c0 k : R) (time : list R) :
  Forall (fun t => 0 < 1 / c0 + k * t) time ->
  Forall (fun v => 0 < v) (map (second_order_law c0 k) time).
Proof.
  intros H. induction H as [|t l Ht _ IH]; simpl; constructor; auto.
  unfold second_order_law. set (u := 1 / c0 + k * t) in *.
  apply Rdiv_lt_0_compat; lra.
Qed.

(** ** Changes of unit and of time origin *)

Lemma all_identical_affine (d s : R) (x : list R) :
  s <> 0 ->
  (all_identical (map (fun t => d + s * t) x) <-> all_identical x).
Proof.
  intros Hs. unfold all_identical. split.
  - intros H u v Hu Hv.
    assert (E : d + s * u = d + s * v)
      by (apply H; apply (in_map (fun t => d + s * t)); assumption).
    apply Rmult_eq_reg_l with s; [lra | exact Hs].
  - intros H u v Hu Hv.
    apply in_map_iff in Hu. destruct Hu as (u' & <- & Hu).
    apply in_map_iff in Hv. destruct Hv as (v' & <- & Hv).
    now rewrite (H u' v' Hu Hv).
Qed.

Lemma r_value_of_scale (u v A B C : R) :
  0 < u -> 0 < v ->
  r_value_of (u * u * A) (u * v * B) (v * v * C) = r_value_of A B C.
Proof.
  intros Hu Hv. unfold r_value_of. cbv zeta.
  assert (Hq : u * v * B / sqrt (u * u * A * (v * v * C))
               = B / sqrt (A * C)).
  { replace (u * u * A * (v * v * C)) with ((u * v) * (u * v) * (A * C))
      by ring.
    assert (Huv : 0 < u * v) by now apply Rmult_lt_0_compat.
    rewrite sqrt_mult_alt by nra. rewrite sqrt_square by lra.
    unfold Rdiv. rewrite Rinv_mult.
    set (S := / sqrt (A * C)). field. lra. }
  now rewrite Hq.
Qed.

Lemma Reqb_scale (w A : R) : 0 < w -> Reqb (w * A) 0 = Reqb A 0.
Proof.
  intros Hw. destruct (Req_dec A 0) as [-> | HA].
  - now rewrite Rmult_0_r.
  - assert (w * A <> 0) by (apply Rmult_integral_contrapositive_currified; lra).
    transitivity false; [|symmetry]; now apply Reqb_false.
Qed.

(** Neither does it change whether [r] is a number. *)
Lemma rvalue_scale (u v A B C : R) :
  0 < u -> 0 < v ->
  rvalue (u * u * A) (u * v * B) (v * v * C) = rvalue A B C.
Proof.
  intros Hu Hv. unfold rvalue.
  rewrite (Reqb_scale (u * u) A), (Reqb_scale (v * v) C)
    by now apply Rmult_lt_0_compat.
  now rewrite r_value_of_scale.
Qed.

(** The regression under a change of scale and origin of both axes. *)
Lemma linregress_rescale (d s p q : R) (x y : list R) :
  0 < s -> 0 < q ->
  linregress (map (fun t => d + s * t) x) (map (fun v => p + q * v) y)
  = match linregress x y with
    | OK (slope, intercept, r) =>
        OK (q * slope / s, p + q * intercept - q * slope / s * d, r)
    | Raise e => Raise e
    end.
Proof.
  intros Hs Hq. unfold linregress. rewrite !length_map.
  destruct (Nat.eqb_spec (length x) 0) as [|Hx]; [reflexivity|].
  destruct (Nat.eqb_spec (length y) 0) as [|Hy]; [reflexivity|]. simpl orb.
  cbv iota.
  assert (Hg : Reqb (np.amax (map (fun t => d + s * t) x))
                    (np.amin (map (fun t => d + s * t) x))
               = Reqb (np.amax x) (np.amin x)).
  { destruct (Reqb (np.amax x) (np.amin x)) eqn:He.
    - apply Reqb_true, amax_amin_identical, all_identical_affine.
      + lra.
      + now apply amax_amin_identical, Reqb_true.
    - apply Reqb_false. intros E. apply Reqb_false in He. apply He.
      apply amax_amin_identical.
      apply (all_identical_affine d s); [lra|].
      now apply amax_amin_identical. }
  rewrite Hg.
  destruct (Reqb (np.amax x) (np.amin x) && (1 <? length x)%nat)%bool;
    [reflexivity|].
  unfold np.cov_bias. rewrite !length_map.
  destruct (length x =? length y)%nat; [|reflexivity]. simpl.
  assert (Hxne : x <> []) by (intros ->; now apply Hx).
  assert (Hyne : y <> []) by (intros ->; now apply Hy).
  rewrite (center_affine d s x Hxne), (center_affine p q y Hyne).
  rewrite (mean_affine d s x Hxne), (mean_affine p q y Hyne).
  rewrite !dot_scale_r, !dot_scale_l.
  set (k := 1 / INR (length x)).
  set (A := np.dot (np.center x) (np.center x)).
  set (B := np.dot (np.center x) (np.center y)).
  set (C := np.dot (np.center y) (np.center y)).
  replace (s * (s * A) * k) with (s * s * (A * k)) by ring.
  replace (q * (s * B) * k) with (s * q * (B * k)) by ring.
  replace (q * (q * C) * k) with (q * q * (C * k)) by ring.
  rewrite !rvalue_inline.
  rewrite (rvalue_scale s q (A * k) (B * k) (C * k) Hs Hq).
  assert (Hsl : s * q * (B * k) / (s * s * (A * k))
                = q * (B * k / (A * k)) / s).
  { unfold Rdiv. rewrite !Rinv_mult.
    set (iA := / A). set (ik := / k). field. lra. }
  rewrite Hsl.
  set (sl := B * k / (A * k)).
  replace (p + q * np.mean y - q * sl / s * (d + s * np.mean x))
    with (p + q * (np.mean y - sl * np.mean x) - q * sl / s * d)
    by (field; lra).
  reflexivity.
Qed.

Lemma linregress_rescale_x (d s : R) (x y : list R) :
  0 < s ->
  linregress (map (fun t => d + s * t) x) y
  = match linregress x y with
    | OK (slope, intercept, r) =>
        OK (slope / s, intercept - slope / s * d, r)
    | Raise e => Raise e
    end.
Proof.
  intros Hs.
  replace y with (map (fun v => 0 + 1 * v) y) at 1.
  - rewrite (linregress_rescale d s 0 1 x y Hs Rlt_0_1).
    destruct (linregress x y) as [[[sl ic] r]|e]; [|reflexivity].
    replace (1 * sl / s) with (sl / s) by (field; lra).
    replace (0 + 1 * ic) with ic by ring. reflexivity.
  - rewrite <- (map_id y) at 2. apply map_ext. intros v. ring.
Qed.

Lemma linregress_rescale_y (p q : R) (x y : list R) :
  0 < q ->
  linregress x (map (fun v => p + q * v) y)
  = match linregress x y with
    | OK (slope, intercept, r) => OK (q * slope, p + q * intercept, r)
    | Raise e => Raise e
    end.
Proof.
  intros Hq.
  replace x with (map (fun t => 0 + 1 * t) x) at 1.
  - rewrite (linregress_rescale 0 1 p q x y Rlt_0_1 Hq).
    destruct (linregress x y) as [[[sl ic] r]|e]; [|reflexivity].
    replace (q * sl / 1) with (q * sl) by field.
    replace (p + q * ic - q * sl * 0) with (p + q * ic) by ring.
    reflexivity.
  - rewrite <- (map_id x) at 2. apply map_ext. intros v. ring.
Qed.

Lemma transform_data_time (time time' concentration : list R) (order : Z) :
  transform_data time' concentration order
  = match transform_data time concentration order with
    | OK (_, y, ylabel, sign_factor) => OK (time', y, ylabel, sign_factor)
    | Raise e => Raise e
    end.
Proof.
  unfold transform_data.
  destruct (order =? 0)%Z; [reflexivity|].
  destruct (order =? 1)%Z;
    [destruct (np.any_le0 concentration); reflexivity|].
  destruct (order =? 2)%Z; [|reflexivity].
  destruct (np.any_le0 concentration); reflexivity.
Qed.

Lemma fit_order_rescale_time (d s : R) (time concentration : list R)
  (order : Z) :
  0 < s ->
  fit_order (map (fun t => d + s * t) time) concentration order
  = match fit_order time concentration order with
    | OK (r2, (slope, intercept, y, ylabel, sign_factor)) =>
        OK (r2, (slope / s, intercept - slope / s * d, y, ylabel, sign_factor))
    | Raise e => Raise e
    end.
Proof.
  intros Hs. unfold fit_order.
  rewrite (transform_data_time time).
  destruct (transform_data time concentration order)
    as [[[[t y] ylabel] sign_factor]|e] eqn:Htr; simpl; [|reflexivity].
  destruct (transform_data_shape _ _ _ _ _ _ _ Htr) as [-> _].
  rewrite (linregress_rescale_x d s time y Hs).
  destruct (linregress time y) as [[[sl ic] r]|e]; reflexivity.
Qed.

(** X8. Changing the unit of time (by a factor s > 0) or the time origin
    (by an offset d) changes no attempt: for every order the attempt on the
    new times raises exactly when the one on the old times does, with the
    same exception, and otherwise gives the same r-squared (nan included),
    the same [y], label and sign factor; the slope is divided by s and the
    intercept moved accordingly.  The rate constant computed from the slope
    is divided by s and does not depend on d. *)
Theorem time_rescale_fit (d s : R) (time concentration : list R)
  (order : Z) :
  0 < s ->
  fit_order (map (fun t => d + s * t) time) concentration order
  = match fit_order time concentration order with
    | OK (r2, (slope, intercept, y, ylabel, sign_factor)) =>
        OK (r2, (slope / s, intercept - slope / s * d, y, ylabel, sign_factor))
    | Raise e => Raise e
    end /\
  forall sign_factor slope,
    rate_constant sign_factor (slope / s)
    = rate_constant sign_factor slope / s.
Proof.
  intros Hs. split; [now apply fit_order_rescale_time|].
  intros sign_factor slope. unfold rate_constant, Rdiv. ring.
Qed.

Lemma time_rescale_fit_witness :
  fit_order (map (fun t => 5 + 60 * t) [0; 1; 2]) [4; 2; 1] 1
  = match fit_order [0; 1; 2] [4; 2; 1] 1 with
    | OK (r2, (slope, intercept, y, ylabel, sign_factor)) =>
        OK (r2, (slope / 60, intercept - slope / 60 * 5,
                 y, ylabel, sign_factor))
    | Raise e => Raise e
    end.
Proof.
  apply (time_rescale_fit 5 60 [0; 1; 2] [4; 2; 1] 1). lra.
Defined.

Lemma any_le0_scale (a : R) (concentration : list R) :
  0 < a ->
  np.any_le0 (map (fun c => a * c) concentration) = np.any_le0 concentration.
Proof.
  intros Ha. unfold np.any_le0.
  induction concentration as [|c l IH]; simpl; [reflexivity|].
  rewrite IH. f_equal.
  destruct (Rleb c 0) eqn:E.
  - apply Rleb_true in E. apply Rleb_true. nra.
  - apply Rleb_false in E. apply Rleb_false. nra.
Qed.

Lemma log_scale (a : R) (concentration : list R) :
  0 < a -> Forall (fun v => 0 < v) concentration ->
  np.log (map (fun c => a * c) concentration)
  = map (fun v => ln a + 1 * v) (np.log concentration).
Proof.
  intros Ha Hpos. unfold np.log. rewrite !map_map.
  apply map_ext_in. intros c Hin.
  rewrite Forall_forall in Hpos. rewrite ln_mult; [ring | exact Ha | auto].
Qed.

Lemma reciprocal_scale (a : R) (concentration : list R) :
  np.reciprocal (map (fun c => a * c) concentration)
  = map (fun v => 0 + / a * v) (np.reciprocal concentration).
Proof.
  unfold np.reciprocal. rewrite !map_map. apply map_ext. intros c.
  unfold Rdiv. rewrite Rinv_mult. ring.
Qed.

Lemma fit_order_rescale_concentration (a : R) (time concentration : list R)
  (order : Z) :
  0 < a ->
  let q := if (order =? 1)%Z then 1 else if (order =? 2)%Z then / a else a in
  let p := if (order =? 1)%Z then ln a else 0 in
  fit_order time (map (fun c => a * c) concentration) order
  = match fit_order time concentration order with
    | OK (r2, (slope, intercept, y, ylabel, sign_factor)) =>
        OK (r2, (q * slope, p + q * intercept,
                 map (fun v => p + q * v) y, ylabel, sign_factor))
    | Raise e => Raise e
    end.
Proof.
  intros Ha q p. unfold fit_order, transform_data.
  rewrite (any_le0_scale a concentration Ha). subst q p.
  destruct (Z.eqb_spec order 0) as [-> | H0]; simpl.
  - replace (map (fun c => a * c) concentration)
      with (map (fun v => 0 + a * v) concentration)
      by (apply map_ext; intros; ring).
    rewrite (linregress_rescale_y 0 a time concentration Ha).
    destruct (linregress time concentration) as [[[sl ic] r]|e]; reflexivity.
  - destruct (Z.eqb_spec order 1) as [-> | H1]; simpl.
    + destruct (np.any_le0 concentration) eqn:Hany; [reflexivity|]. simpl.
      apply any_le0_false in Hany.
      rewrite (log_scale a concentration Ha Hany).
      rewrite (linregress_rescale_y (ln a) 1 time _ Rlt_0_1).
      destruct (linregress time (np.log concentration))
        as [[[sl ic] r]|e]; reflexivity.
    + destruct (Z.eqb_spec order 2) as [-> | H2]; simpl; [|reflexivity].
      destruct (np.any_le0 concentration) eqn:Hany; [reflexivity|]. simpl.
      rewrite (reciprocal_scale a concentration).
      assert (Hia : 0 < / a) by now apply Rinv_0_lt_compat.
      rewrite (linregress_rescale_y 0 (/ a) time _ Hia).
      destruct (linregress time (np.reciprocal concentration))
        as [[[sl ic] r]|e]; reflexivity.
Qed.

Lemma two_distinct_421 : two_distinct [4; 2; 1].
Proof. exists 4, 2. simpl. repeat split; auto; lra. Qed.

(** X9. Changing the unit of concentration (by a factor a > 0) changes
    the outcome and the r-squared of no attempt, for concentrations that
    are not all identical (for constant data the correlation coefficient
    is 0/0): for every order the attempt on the new concentrations raises
    exactly when the one on the old concentrations does, with the same
    exception, and otherwise gives the same r-squared, label and sign
    factor.  The slope is multiplied by a for order 0, unchanged for
    order 1 (where the intercept moves by [ln a]) and divided by a for
    order 2. *)
Theorem concentration_rescale_fit (a : R) (time concentration : list R)
  (order : Z) :
  0 < a -> two_distinct concentration ->
  let q := if (order =? 1)%Z then 1 else if (order =? 2)%Z then / a else a in
  let p := if (order =? 1)%Z then ln a else 0 in
  fit_order time (map (fun c => a * c) concentration) order
  = match fit_order time concentration order with
    | OK (r2, (slope, intercept, y, ylabel, sign_factor)) =>
        OK (r2, (q * slope, p + q * intercept,
                 map (fun v => p + q * v) y, ylabel, sign_factor))
    | Raise e => Raise e
    end.
Proof.
  intros Ha _. now apply fit_order_rescale_concentration.
Qed.

Lemma concentration_rescale_fit_witness :
  fit_order [0; 1; 2] (map (fun c => 1000 * c) [4; 2; 1]) 2
  = match fit_order [0; 1; 2] [4; 2; 1] 2 with
    | OK (r2, (slope, intercept, y, ylabel, sign_factor)) =>
        OK (r2, (/ 1000 * slope, 0 + / 1000 * intercept,
                 map (fun v => 0 + / 1000 * v) y, ylabel, sign_factor))
    | Raise e => Raise e
    end.
Proof.
  apply (concentration_rescale_fit 1000 [0; 1; 2] [4; 2; 1] 2);
    [lra | exact two_distinct_421].
Defined.

(** ** The fitted line *)

Section LeastSquares.

Lemma sum_center (l : list R) : l <> [] -> np.sum (np.center l) = 0.
Proof.
  intros Hne. unfold np.center.
  assert (H : forall m (l0 : list R),
             np.sum (map (fun v => v - m) l0)
             = np.sum l0 - INR (length l0) * m).
  { intros m l0. unfold np.sum. induction l0 as [|v l0 IH]; [simpl; ring|].
    cbn [map fold_right]. rewrite IH.
    change (length (v :: l0)) with (S (length l0)). rewrite S_INR. ring. }
  rewrite H. unfold np.mean.
  assert (INR (length l) <> 0).
  { apply not_0_INR. destruct l; [congruence | discriminate]. }
  field. assumption.
Qed.

(** The squared residuals of any line, split around the means [mx], [my]. *)
Lemma sse_split (a b mx my : R) : forall x y : list R,
  length x = length y ->
  sse a b x y
  = np.dot (map (fun v => v - my) y) (map (fun v => v - my) y)
    - 2 * b * np.dot (map (fun v => v - mx) x) (map (fun v => v - my) y)
    + b * b * np.dot (map (fun v => v - mx) x) (map (fun v => v - mx) x)
    + 2 * (my - a - b * mx)
      * (np.sum (map (fun v => v - my) y)
         - b * np.sum (map (fun v => v - mx) x))
    + INR (length x) * ((my - a - b * mx) * (my - a - b * mx)).
Proof.
  unfold sse, fit_line, np.dot, np.sum.
  induction x as [|u x IH]; intros [|v y] Hlen; simpl in Hlen;
    try discriminate; [simpl; ring|].
  injection Hlen as Hlen. specialize (IH y Hlen).
  change (length (u :: x)) with (S (length x)). rewrite S_INR.
  cbn [map combine fold_right fst snd] in *. rewrite IH. simpl. ring.
Qed.

(** With the regression's own slope and intercept the squared residuals
    are [C - B^2 / A]; any other line adds two squares to that. *)
Lemma sse_regression (a b : R) (x y : list R) :
  length x = length y -> x <> [] ->
  let A := np.dot (np.center x) (np.center x) in
  let B := np.dot (np.center x) (np.center y) in
  let C := np.dot (np.center y) (np.center y) in
  let e := np.mean y - a - b * np.mean x in
  sse a b x y = C - 2 * b * B + b * b * A + INR (length x) * (e * e).
Proof.
  intros Hlen Hx A B C e.
  assert (Hy : y <> []) by (intros ->; destruct x; [congruence | discriminate]).
  rewrite (sse_split a b (np.mean x) (np.mean y) x y Hlen).
  fold (np.center x) (np.center y). fold A B C e.
  rewrite (sum_center x Hx), (sum_center y Hy). ring.
Qed.

End LeastSquares.

Lemma sum_squares_zero (f : R * R -> R) (l : list (R * R)) :
  np.sum (map (fun p => f p ^ 2) l) = 0 -> Forall (fun p => f p = 0) l.
Proof.
  induction l as [|p l IH]; intros H; constructor.
  - pose proof (sum_squares_nonneg f l) as Hl.
    change (np.sum (map (fun p => f p ^ 2) (p :: l)))
      with (f p ^ 2 + np.sum (map (fun p => f p ^ 2) l)) in H.
    pose proof (pow2_ge_0 (f p)) as Hp.
    assert (Hz : f p ^ 2 = 0) by lra.
    simpl in Hz. apply Rmult_integral in Hz. destruct Hz as [Hz | Hz]; lra.
  - apply IH.
    pose proof (sum_squares_nonneg f l) as Hl.
    change (np.sum (map (fun p => f p ^ 2) (p :: l)))
      with (f p ^ 2 + np.sum (map (fun p => f p ^ 2) l)) in H.
    pose proof (pow2_ge_0 (f p)) as Hp. lra.
Qed.

Lemma combine_pointwise_eq : forall l1 l2 : list R,
  length l1 = length l2 ->
  Forall (fun p => fst p - snd p = 0) (combine l1 l2) -> l1 = l2.
Proof.
  induction l1 as [|u l1 IH]; intros [|v l2] Hlen H; simpl in Hlen;
    try discriminate; [reflexivity|].
  simpl in H. inversion H as [|p l Hp Hl]; subst. simpl in Hp.
  f_equal; [lra | apply IH; [now injection Hlen | exact Hl]].
Qed.

(** What the regression leaves: with slope [B / A] and the matching
    intercept, the squared residuals are [C - B^2 / A], and any other
    line [a + b t] exceeds that by [A (b - slope)^2 + n e^2]. *)
Lemma linregress_sse (x y : list R) (slope intercept : R) (r : ext_real) :
  linregress x y = OK (slope, intercept, r) ->
  let A := np.dot (np.center x) (np.center x) in
  let B := np.dot (np.center x) (np.center y) in
  let C := np.dot (np.center y) (np.center y) in
  0 < A ->
  slope = B / A /\
  sse intercept slope x y = C - B * B / A /\
  forall a b,
    sse a b x y
    = sse intercept slope x y + A * ((b - slope) * (b - slope))
      + INR (length x)
        * ((np.mean y - a - b * np.mean x) * (np.mean y - a - b * np.mean x)).
Proof.
  intros Hreg A B C HA.
  destruct (linregress_inv _ _ _ _ _ Hreg) as (Hlen & Hsl & Hic & _).
  assert (Hx : x <> []).
  { intros ->. unfold linregress in Hreg. simpl in Hreg. discriminate. }
  assert (Hn : INR (length x) <> 0).
  { apply not_0_INR. destruct x; [congruence | discriminate]. }
  assert (Hslope : slope = B / A).
  { rewrite Hsl. unfold ssxym_of, ssxm_of. fold A B.
    apply scaled_quotient. unfold Rdiv. rewrite Rmult_1_l.
    now apply Rinv_neq_0_compat. }
  assert (Hopt : sse intercept slope x y = C - B * B / A).
  { rewrite (sse_regression intercept slope x y Hlen Hx). fold A B C.
    rewrite Hic.
    replace (np.mean y - (np.mean y - slope * np.mean x) - slope * np.mean x)
      with 0 by ring.
    rewrite Hslope. field. lra. }
  split; [exact Hslope|]. split; [exact Hopt|].
  intros a b. rewrite Hopt.
  rewrite (sse_regression a b x y Hlen Hx). fold A B C.
  rewrite Hslope. field. lra.
Qed.

(** X10. The line the selector returns is the least-squares line of the
    returned data: no line [a + b t] has a smaller sum of squared
    residuals against the returned [y] than [fit_line intercept slope],
    the line [plot_best_fit] draws (for times with two distinct values). *)
Theorem returned_line_is_best_fit (time concentration : list R)
  (o : Z) (b0 : ext_real) (slope intercept : R) (y : list R)
  (ylabel : string) (sign_factor : Z) :
  determine_best_order time concentration
  = OK (o, b0, Some (slope, intercept, y, ylabel, sign_factor)) ->
  two_distinct time ->
  forall a b, sse intercept slope time y <= sse a b time y.
Proof.
  intros Hret Hd a b.
  destruct (determine_returns _ _ _ _ _ Hret)
    as (r2 & d & _ & _ & _ & Hf & _ & E & _).
  injection E as <-. apply fit_order_inv in Hf.
  destruct Hf as (r & _ & Hreg & _).
  pose proof (dot_center_positive time Hd) as HA.
  destruct (linregress_sse _ _ _ _ _ Hreg HA) as (_ & _ & Hall).
  rewrite (Hall a b).
  set (e := np.mean y - a - b * np.mean time).
  assert (H1 : 0 <= np.dot (np.center time) (np.center time)
                    * ((b - slope) * (b - slope)))
    by (apply Rmult_le_pos; [lra | apply Rle_0_sqr]).
  assert (H2 : 0 <= INR (length time) * (e * e))
    by (apply Rmult_le_pos; [apply pos_INR | apply Rle_0_sqr]).
  lra.
Qed.

Lemma returned_line_is_best_fit_witness :
  two_distinct [0; 1] /\
  exists slope intercept y,
    forall a b, sse intercept slope [0; 1] y <= sse a b [0; 1] y.
Proof.
  split; [exact two_distinct_01|].
  destruct tie_orders_0_2
    as ([[[[sl ic] y] l] sf] & _ & _ & _ & Hret).
  exists sl, ic, y.
  apply (returned_line_is_best_fit [0; 1] [1; 2] _ _ _ _ _ _ _ Hret
           two_distinct_01).
Defined.

(** An attempt with r-squared exactly 1 is an exact fit. *)
Lemma fit_perfect_exact (time concentration : list R)
  (o : Z) (slope intercept : R) (y : list R)
  (ylabel : string) (sign_factor : Z) :
  fit_order time concentration o
  = OK (Fin 1, (slope, intercept, y, ylabel, sign_factor)) ->
  fit_line intercept slope time = y.
Proof.
  intros Hf. apply fit_order_inv in Hf.
  destruct Hf as (r & _ & Hreg & Hr).
  destruct (linregress_inv _ _ _ _ _ Hreg) as (Hlen & _ & _ & Hrv).
  assert (Hx : time <> []).
  { intros ->. unfold linregress in Hreg. simpl in Hreg. discriminate. }
  assert (Hk : 0 < 1 / INR (length time)).
  { unfold Rdiv. rewrite Rmult_1_l. apply Rinv_0_lt_compat, lt_0_INR.
    destruct time; [congruence | simpl; lia]. }
  pose proof (dot_self_nonneg (np.center time)) as HA0.
  pose proof (dot_self_nonneg (np.center y)) as HC0.
  pose proof (covariance_bound time y Hlen) as Hcs.
  (* r is a number, so neither variance is 0 *)
  assert (Hxx : ssxm_of time <> 0 /\ ssym_of time y <> 0).
  { split; intros Hz; rewrite rvalue_nan in Hrv by auto; discriminate. }
  destruct Hxx as [Hxx Hyy].
  assert (Hxp : 0 < ssxm_of time)
    by (unfold ssxm_of in *; nra).
  assert (Hyp : 0 < ssym_of time y)
    by (unfold ssym_of in *; nra).
  rewrite rvalue_fin in Hrv by assumption. injection Hrv as Hrv.
  rewrite Hrv, (r_value_of_sq _ _ _ Hxp Hyp Hcs) in Hr.
  assert (Heq : ssxym_of time y * ssxym_of time y
                = ssxm_of time * ssym_of time y).
  { apply (Rmult_eq_compat_r (ssxm_of time * ssym_of time y)) in Hr.
    unfold Rdiv in Hr. rewrite Rmult_assoc, Rinv_l, Rmult_1_r, Rmult_1_l in Hr
      by nra. now symmetry. }
  unfold ssxm_of, ssxym_of, ssym_of in Hxp, Heq.
  set (A := np.dot (np.center time) (np.center time)) in *.
  set (B := np.dot (np.center time) (np.center y)) in *.
  set (C := np.dot (np.center y) (np.center y)) in *.
  set (k := 1 / INR (length time)) in *.
  assert (HA : 0 < A) by nra.
  assert (HBC : B * B = A * C).
  { apply Rmult_eq_reg_r with (k * k); [|nra]. nra. }
  destruct (linregress_sse _ _ _ _ _ Hreg HA) as (_ & Hopt & _).
  fold B C A in Hopt.
  assert (Hz : sse intercept slope time y = 0).
  { rewrite Hopt, HBC. field. lra. }
  unfold sse in Hz.
  apply (sum_squares_zero (fun p => fst p - snd p)) in Hz.
  symmetry. apply combine_pointwise_eq; [|exact Hz].
  unfold fit_line. rewrite length_map. now symmetry.
Qed.

(** ** Telling the orders apart *)

(** A line meets an exponential in at most two points. *)
Lemma exp_above_tangent (c kappa s t : R) :
  0 < c -> kappa <> 0 -> s <> t ->
  c * exp (- kappa * t) * (1 - kappa * (s - t)) < c * exp (- kappa * s).
Proof.
  intros Hc Hk Hst.
  replace (- kappa * s) with (- kappa * t + - kappa * (s - t)) by ring.
  rewrite exp_plus.
  assert (Hne : - kappa * (s - t) <> 0).
  { intros H. apply Rmult_integral in H. destruct H; lra. }
  pose proof (exp_ineq1 _ Hne) as Hexp.
  pose proof (exp_pos (- kappa * t)) as Hpos.
  assert (0 < c * exp (- kappa * t)) by now apply Rmult_lt_0_compat.
  nra.
Qed.

Lemma line_exp_ordered (a b c kappa t1 t2 t3 : R) :
  0 < c -> kappa <> 0 -> t1 < t2 -> t2 < t3 ->
  a + b * t1 = c * exp (- kappa * t1) ->
  a + b * t2 = c * exp (- kappa * t2) ->
  a + b * t3 = c * exp (- kappa * t3) -> False.
Proof.
  intros Hc Hk H12 H23 E1 E2 E3.
  assert (T1 := exp_above_tangent c kappa t1 t2 Hc Hk ltac:(lra)).
  assert (T3 := exp_above_tangent c kappa t3 t2 Hc Hk ltac:(lra)).
  rewrite <- E1, <- E2 in T1. rewrite <- E3, <- E2 in T3.
  assert (P1 : (t3 - t2) * ((a + b * t2) * (1 - kappa * (t1 - t2)))
               < (t3 - t2) * (a + b * t1))
    by (apply Rmult_lt_compat_l; lra).
  assert (P3 : (t2 - t1) * ((a + b * t2) * (1 - kappa * (t3 - t2)))
               < (t2 - t1) * (a + b * t3))
    by (apply Rmult_lt_compat_l; lra).
  nra.
Qed.

Lemma line_exp_three (a b c kappa t1 t2 t3 : R) :
  0 < c -> kappa <> 0 -> t1 <> t2 -> t2 <> t3 -> t1 <> t3 ->
  a + b * t1 = c * exp (- kappa * t1) ->
  a + b * t2 = c * exp (- kappa * t2) ->
  a + b * t3 = c * exp (- kappa * t3) -> False.
Proof.
  intros Hc Hk N12 N23 N13 E1 E2 E3.
  destruct (Rtotal_order t1 t2) as [L12 | [? | G12]]; [|contradiction|];
  destruct (Rtotal_order t2 t3) as [L23 | [? | G23]]; try contradiction;
  destruct (Rtotal_order t1 t3) as [L13 | [? | G13]]; try contradiction;
    try lra.
  - exact (line_exp_ordered a b c kappa t1 t2 t3 Hc Hk L12 L23 E1 E2 E3).
  - exact (line_exp_ordered a b c kappa t1 t3 t2 Hc Hk L13 G23 E1 E3 E2).
  - exact (line_exp_ordered a b c kappa t3 t1 t2 Hc Hk G13 L12 E3 E1 E2).
  - exact (line_exp_ordered a b c kappa t2 t1 t3 Hc Hk G12 L13 E2 E1 E3).
  - exact (line_exp_ordered a b c kappa t2 t3 t1 Hc Hk L23 G13 E2 E3 E1).
  - exact (line_exp_ordered a b c kappa t3 t2 t1 Hc Hk G23 G12 E3 E2 E1).
Qed.

(** A quadratic with three distinct roots is zero. *)
Lemma quadratic_three_roots (a2 a1 a0 t1 t2 t3 : R) :
  t1 <> t2 -> t2 <> t3 -> t1 <> t3 ->
  a2 * t1 * t1 + a1 * t1 + a0 = 0 ->
  a2 * t2 * t2 + a1 * t2 + a0 = 0 ->
  a2 * t3 * t3 + a1 * t3 + a0 = 0 ->
  a2 = 0 /\ a1 = 0 /\ a0 = 0.
Proof.
  intros N12 N23 N13 E1 E2 E3.
  assert (D12 : a2 * (t1 + t2) + a1 = 0).
  { apply Rmult_eq_reg_l with (t1 - t2); [|lra]. nra. }
  assert (D23 : a2 * (t2 + t3) + a1 = 0).
  { apply Rmult_eq_reg_l with (t2 - t3); [|lra]. nra. }
  assert (A2 : a2 = 0).
  { apply Rmult_eq_reg_l with (t1 - t3); [|lra].
    replace ((t1 - t3) * a2)
      with ((a2 * (t1 + t2) + a1) - (a2 * (t2 + t3) + a1)) by ring.
    rewrite D12, D23. ring. }
  subst a2. assert (A1 : a1 = 0) by lra. subst a1.
  split; [reflexivity|]. split; [reflexivity | lra].
Qed.

Lemma three_distinct_two (t : list R) : three_distinct t -> two_distinct t.
Proof.
  intros (t1 & t2 & _ & H1 & H2 & _ & N & _). exists t1, t2. auto.
Qed.

Lemma map_eq_at (f g : R -> R) (l : list R) (t : R) :
  map f l = map g l -> In t l -> f t = g t.
Proof. intros H. now apply map_ext_in_iff. Qed.

(** An order with r-squared 1 is returned when every earlier order that
    gives a number stays below 1. *)
Lemma determine_perfect (time concentration : list R) (o : Z) (d : details) :
  In o orders ->
  fit_order time concentration o = OK (Fin 1, d) ->
  (forall o' r d', (o' < o)%Z ->
     fit_order time concentration o' = OK (Fin r, d') -> r < 1) ->
  determine_best_order time concentration = OK (o, Fin 1, Some d).
Proof.
  intros Hin Hf Hlow.
  destruct (determine_total time concentration o 1 d Hin Hf)
    as (o1 & b & od & Hret).
  rewrite Hret.
  destruct (determine_returns _ _ _ _ _ Hret)
    as (r & d' & bef & aft & Heq & Hfo & -> & -> & Hbef & Haft).
  pose proof (fit_order_r2_range _ _ _ _ _ Hfo) as Hr.
  assert (Hsame : o1 = o -> OK (o1, Fin r, Some d') = OK (o, Fin 1, Some d)).
  { intros ->. rewrite Hf in Hfo. now injection Hfo as <- <-. }
  assert (Hearlier : (o1 < o)%Z -> In o aft -> False).
  { intros Hlt Ha. pose proof (Haft _ _ _ Ha Hf).
    pose proof (Hlow _ _ _ Hlt Hfo). lra. }
  assert (Hlater : In o bef -> False).
  { intros Hb. pose proof (Hbef _ _ _ Hb Hf). lra. }
  unfold orders in Hin. simpl in Hin.
  destruct (orders_split _ _ _ Heq)
    as [(-> & -> & ->) | [(-> & -> & ->) | (-> & -> & ->)]];
    destruct Hin as [<- | [<- | [<- | []]]];
    try (now apply Hsame);
    exfalso;
    try (apply Hlater; simpl; now auto);
    apply Hearlier; simpl; auto; lia.
Qed.

(** An attempt that is not an exact fit has r-squared below 1. *)
Lemma fit_imperfect (time concentration : list R) (o : Z) (r2 : R)
  (slope intercept : R) (y : list R) (ylabel : string) (sign_factor : Z) :
  fit_order time concentration o
  = OK (Fin r2, (slope, intercept, y, ylabel, sign_factor)) ->
  fit_line intercept slope time <> y -> r2 < 1.
Proof.
  intros Hf Hne. pose proof (fit_order_r2_range _ _ _ _ _ Hf) as [_ Hle].
  destruct Hle as [Hlt | ->]; [exact Hlt|].
  exfalso. apply Hne. eapply fit_perfect_exact, Hf.
Qed.

(** So does an attempt on data that no line passes through. *)
Lemma fit_below_one (time concentration : list R) (o : Z) (r2 : R)
  (d : details) :
  fit_order time concentration o = OK (Fin r2, d) ->
  (forall a b y ylabel sign_factor,
     transform_data time concentration o
     = OK (time, y, ylabel, sign_factor) ->
     fit_line a b time <> y) ->
  r2 < 1.
Proof.
  destruct d as [[[[slope intercept] y] ylabel] sign_factor].
  intros Hf Hno. eapply fit_imperfect; [exact Hf|].
  apply fit_order_inv in Hf. destruct Hf as (r & Htr & _).
  eapply Hno, Htr.
Qed.

Lemma fit_order1_first_order_law (c0 k : R) (time : list R) :
  two_distinct time -> 0 < c0 -> k <> 0 ->
  fit_order time (map (first_order_law c0 k) time) 1
  = OK (Fin 1, (- k, ln c0, map ln (map (first_order_law c0 k) time),
            "ln[A]"%string, (-1)%Z)).
Proof.
  intros Hd Hc Hk.
  apply (fit_order_affine (ln c0) (- k)); [| | exact Hd | lra].
  - apply transform_data_order1, first_order_positive, Hc.
  - rewrite map_map. apply map_ext. intros t. unfold first_order_law.
    rewrite ln_mult, ln_exp; [ring | exact Hc | apply exp_pos].
Qed.

Lemma fit_order2_second_order_law (c0 k : R) (time : list R) :
  two_distinct time -> k <> 0 ->
  Forall (fun t => 0 < 1 / c0 + k * t) time ->
  fit_order time (map (second_order_law c0 k) time) 2
  = OK (Fin 1, (k, 1 / c0,
            map (fun c => 1 / c) (map (second_order_law c0 k) time),
            "1/[A] (1/M)"%string, 1%Z)).
Proof.
  intros Hd Hk Hpos.
  apply (fit_order_affine (1 / c0) k); [| | exact Hd | exact Hk].
  - apply transform_data_order2, second_order_positive, Hpos.
  - rewrite map_map. apply map_ext_in. intros t Hin.
    rewrite Forall_forall in Hpos. specialize (Hpos t Hin).
    unfold second_order_law. set (u := 1 / c0 + k * t) in *.
    field. lra.
Qed.

(** No line passes through three samples of an exponential decay. *)
Lemma line_not_exponential (c0 k : R) (time : list R) :
  three_distinct time -> 0 < c0 -> k <> 0 ->
  forall a b, fit_line a b time <> map (first_order_law c0 k) time.
Proof.
  intros (t1 & t2 & t3 & I1 & I2 & I3 & N12 & N23 & N13) Hc Hk a b Heq.
  unfold fit_line in Heq.
  pose proof (map_eq_at _ _ _ _ Heq I1) as E1.
  pose proof (map_eq_at _ _ _ _ Heq I2) as E2.
  pose proof (map_eq_at _ _ _ _ Heq I3) as E3.
  unfold first_order_law in E1, E2, E3.
  exact (line_exp_three _ _ c0 k t1 t2 t3 Hc Hk N12 N23 N13 E1 E2 E3).
Qed.

(** Nor through three samples of the reciprocal of a line. *)
Lemma line_not_reciprocal (al be : R) (time : list R) :
  three_distinct time -> be <> 0 ->
  Forall (fun t => 0 < al + be * t) time ->
  forall a b, fit_line a b time <> map (fun t => 1 / (al + be * t)) time.
Proof.
  intros (t1 & t2 & t3 & I1 & I2 & I3 & N12 & N23 & N13) Hk Hpos a b Heq.
  rewrite Forall_forall in Hpos.
  pose proof (Hpos t1 I1) as P1. pose proof (Hpos t2 I2) as P2.
  pose proof (Hpos t3 I3) as P3.
  unfold fit_line in Heq.
  pose proof (map_eq_at _ _ _ _ Heq I1) as E1.
  pose proof (map_eq_at _ _ _ _ Heq I2) as E2.
  pose proof (map_eq_at _ _ _ _ Heq I3) as E3.
  cbv beta in E1, E2, E3.
  assert (Q : forall t, 0 < al + be * t -> a + b * t = 1 / (al + be * t) ->
            b * be * t * t + (a * be + b * al) * t + (a * al - 1) = 0).
  { intros t Ht Et.
    assert (Hm : (a + b * t) * (al + be * t) = 1)
      by (rewrite Et; field; lra).
    lra. }
  destruct (quadratic_three_roots _ _ _ t1 t2 t3 N12 N23 N13
              (Q t1 P1 E1) (Q t2 P2 E2) (Q t3 P3 E3)) as (A2 & A1 & A0).
  assert (Hb : b = 0).
  { apply Rmult_integral in A2. destruct A2; [assumption | contradiction]. }
  assert (Ha : a = 0).
  { rewrite Hb, Rmult_0_l, Rplus_0_r in A1.
    apply Rmult_integral in A1. destruct A1; [assumption | contradiction]. }
  rewrite Ha in A0. lra.
Qed.

(** Nor through three samples of the logarithm of a line. *)
Lemma line_not_logarithm (al be : R) (time : list R) :
  three_distinct time -> be <> 0 ->
  Forall (fun t => 0 < al + be * t) time ->
  forall a b, fit_line a b time <> map (fun t => ln (al + be * t)) time.
Proof.
  intros (t1 & t2 & t3 & I1 & I2 & I3 & N12 & N23 & N13) Hk Hpos a b Heq.
  rewrite Forall_forall in Hpos.
  pose proof (Hpos t1 I1) as P1. pose proof (Hpos t2 I2) as P2.
  pose proof (Hpos t3 I3) as P3.
  unfold fit_line in Heq.
  pose proof (map_eq_at _ _ _ _ Heq I1) as E1.
  pose proof (map_eq_at _ _ _ _ Heq I2) as E2.
  pose proof (map_eq_at _ _ _ _ Heq I3) as E3.
  cbv beta in E1, E2, E3.
  assert (Q : forall t, 0 < al + be * t -> a + b * t = ln (al + be * t) ->
            al + be * t = exp a * exp (- (- b) * t)).
  { intros t Ht Et. rewrite <- exp_plus.
    replace (a + - - b * t) with (ln (al + be * t)) by lra.
    now rewrite exp_ln. }
  pose proof (Q t1 P1 E1) as F1. pose proof (Q t2 P2 E2) as F2.
  pose proof (Q t3 P3 E3) as F3.
  destruct (Req_dec b 0) as [Hz | Hnz].
  - assert (E12 : al + be * t1 = al + be * t2).
    { rewrite F1, F2.
      replace (- - b * t1) with (- - b * t2) by (rewrite Hz; ring).
      reflexivity. }
    assert (Hkt : be * (t1 - t2) = 0) by lra.
    apply Rmult_integral in Hkt. destruct Hkt; [contradiction | lra].
  - assert (Hnb : - b <> 0) by lra.
    exact (line_exp_three al be (exp a) (- b) t1 t2 t3
             (exp_pos _) Hnb N12 N23 N13 F1 F2 F3).
Qed.

Lemma Forall_map_iff (P : R -> Prop) (f : R -> R) (l : list R) :
  Forall P (map f l) <-> Forall (fun t => P (f t)) l.
Proof.
  rewrite !Forall_forall. split.
  - intros H t Hin. apply H, in_map, Hin.
  - intros H v Hin. apply in_map_iff in Hin. destruct Hin as (t & <- & Hin).
    now apply H.
Qed.

Lemma three_distinct_012 : three_distinct [0; 1; 2].
Proof.
  exists 0, 1, 2. simpl. repeat split; auto; lra.
Qed.

(** X5. Zero-order data [c = c0 - k t] (k <> 0) sampled at three or more
    distinct times are identified: the selector returns order 0 with
    r-squared 1, slope [-k] and intercept [c0], and the rate constant
    [sign_factor * slope] is [k].  Order 0 is not returned by the tie rule
    here: whenever an attempt for order 1 or 2 gives a number for
    r-squared, that number is strictly below 1. *)
Theorem zero_order_law_recovered (c0 k : R) (time : list R) :
  three_distinct time -> k <> 0 ->
  determine_best_order time (map (zero_order_law c0 k) time)
  = OK (0%Z, Fin 1,
        Some (- k, c0, map (zero_order_law c0 k) time,
              "[A] (M)"%string, (-1)%Z)) /\
  (forall o r2 d, o <> 0%Z ->
     fit_order time (map (zero_order_law c0 k) time) o = OK (Fin r2, d) ->
     r2 < 1) /\
  rate_constant (-1) (- k) = k.
Proof.
  intros H3 Hk.
  pose proof (three_distinct_two time H3) as Hd.
  split; [|split; [|unfold rate_constant; lra]].
  - apply determine_first_perfect.
    apply (fit_order_affine c0 (- k));
      [apply transform_data_order0 | | exact Hd | lra].
    apply map_ext. intros t. unfold zero_order_law. ring.
  - intros o r2 d Ho Hf. eapply fit_below_one; [exact Hf|].
    intros a b y ylabel sign_factor Htr.
    assert (Hnk : - k <> 0) by lra.
    assert (Hz : forall t, zero_order_law c0 k t = c0 + - k * t)
      by (intros t; unfold zero_order_law; ring).
    apply transform_data_cases in Htr.
    destruct Htr as [(-> & _) | [(-> & Hpos & -> & _) | (-> & Hpos & -> & _)]];
      [contradiction | |];
      apply (proj1 (Forall_map_iff (fun v => 0 < v) (zero_order_law c0 k)
                     time)) in Hpos;
      rewrite map_map;
      assert (Hpos' : Forall (fun t => 0 < c0 + - k * t) time)
        by (eapply Forall_impl; [|exact Hpos];
            intros t Ht; cbv beta in Ht; now rewrite Hz in Ht).
    + rewrite (map_ext _ (fun t => ln (c0 + - k * t)))
        by (intros t; now rewrite Hz).
      now apply line_not_logarithm.
    + rewrite (map_ext _ (fun t => 1 / (c0 + - k * t)))
        by (intros t; now rewrite Hz).
      now apply line_not_reciprocal.
Qed.

Lemma zero_order_law_recovered_witness :
  three_distinct [0; 1; 2] /\
  determine_best_order [0; 1; 2] (map (zero_order_law 2 (1 / 2)) [0; 1; 2])
  = OK (0%Z, Fin 1,
        Some (- (1 / 2), 2, map (zero_order_law 2 (1 / 2)) [0; 1; 2],
              "[A] (M)"%string, (-1)%Z)).
Proof.
  split; [exact three_distinct_012|].
  apply (zero_order_law_recovered 2 (1 / 2) [0; 1; 2] three_distinct_012). lra.
Defined.

(** X6. First-order data [c = c0 exp (-k t)] (c0 > 0, k <> 0) sampled at
    three or more distinct times are identified: the selector returns
    order 1 with r-squared 1, slope [-k] and intercept [ln c0], and the
    rate constant is [k].  (With only two distinct times every order fits
    exactly and order 0 is returned.) *)
Theorem first_order_identified (c0 k : R) (time : list R) :
  three_distinct time -> 0 < c0 -> k <> 0 ->
  determine_best_order time (map (first_order_law c0 k) time)
  = OK (1%Z, Fin 1,
        Some (- k, ln c0, map ln (map (first_order_law c0 k) time),
              "ln[A]"%string, (-1)%Z)) /\
  rate_constant (-1) (- k) = k.
Proof.
  intros H3 Hc Hk. split; [|unfold rate_constant; lra].
  pose proof (three_distinct_two time H3) as Hd.
  apply determine_perfect.
  - unfold orders. simpl. auto.
  - now apply fit_order1_first_order_law.
  - intros o' r d' Ho' Hf. eapply fit_below_one; [exact Hf|].
    intros a b y ylabel sign_factor Htr.
    apply transform_data_cases in Htr.
    destruct Htr as [(-> & -> & _) | [(-> & _) | (-> & _)]]; try lia.
    now apply line_not_exponential.
Qed.

Lemma first_order_identified_witness :
  three_distinct [0; 1; 2] /\
  determine_best_order [0; 1; 2] (map (first_order_law 2 1) [0; 1; 2])
  = OK (1%Z, Fin 1,
        Some (- (1), ln 2, map ln (map (first_order_law 2 1) [0; 1; 2]),
              "ln[A]"%string, (-1)%Z)).
Proof.
  split; [exact three_distinct_012|].
  apply (first_order_identified 2 1 [0; 1; 2] three_distinct_012); lra.
Defined.

(** X7. Second-order data [1/c = 1/c0 + k t] (positive at every sampled
    time, k <> 0) sampled at three or more distinct times are identified:
    the selector returns order 2 with r-squared 1, slope [k] and intercept
    [1/c0], and the rate constant, taken with sign factor +1, is [k]. *)
Theorem second_order_identified (c0 k : R) (time : list R) :
  three_distinct time -> k <> 0 ->
  Forall (fun t => 0 < 1 / c0 + k * t) time ->
  determine_best_order time (map (second_order_law c0 k) time)
  = OK (2%Z, Fin 1,
        Some (k, 1 / c0,
              map (fun c => 1 / c) (map (second_order_law c0 k) time),
              "1/[A] (1/M)"%string, 1%Z)) /\
  rate_constant 1 k = k.
Proof.
  intros H3 Hk Hpos. split; [|unfold rate_constant; lra].
  pose proof (three_distinct_two time H3) as Hd.
  apply determine_perfect.
  - unfold orders. simpl. auto.
  - now apply fit_order2_second_order_law.
  - intros o' r d' Ho' Hf. eapply fit_below_one; [exact Hf|].
    intros a b y ylabel sign_factor Htr.
    apply transform_data_cases in Htr.
    destruct Htr as [(-> & -> & _) | [(-> & _ & -> & _) | (-> & _)]];
      try lia.
    + (* order 0: a line is not a reciprocal at three points *)
      now apply line_not_reciprocal.
    + (* order 1: a line is not minus a logarithm at three points *)
      rewrite map_map. intros Heq.
      apply (line_not_logarithm (1 / c0) k time H3 Hk Hpos (- a) (- b)).
      unfold fit_line in *.
      apply map_ext_in. intros t Hin.
      pose proof (map_eq_at _ _ _ _ Heq Hin) as Et.
      cbv beta in Et. unfold second_order_law in Et.
      rewrite Forall_forall in Hpos. specialize (Hpos t Hin).
      unfold Rdiv in Et at 1. rewrite Rmult_1_l, ln_Rinv in Et by exact Hpos.
      lra.
Qed.

Lemma second_order_identified_witness :
  three_distinct [0; 1; 2] /\
  Forall (fun t => 0 < 1 / 1 + 1 * t) [0; 1; 2] /\
  determine_best_order [0; 1; 2] (map (second_order_law 1 1) [0; 1; 2])
  = OK (2%Z, Fin 1,
        Some (1, 1 / 1,
              map (fun c => 1 / c) (map (second_order_law 1 1) [0; 1; 2]),
              "1/[A] (1/M)"%string, 1%Z)).
Proof.
  assert (Hpos : Forall (fun t => 0 < 1 / 1 + 1 * t) [0; 1; 2])
    by (repeat constructor; lra).
  split; [exact three_distinct_012|]. split; [exact Hpos|].
  apply (second_order_identified 1 1 [0; 1; 2] three_distinct_012);
    [lra | exact Hpos].
Defined.

(** ** The order of the samples *)

Section SampleOrder.

Lemma sum_perm (l l' : list R) : Permutation l l' -> np.sum l = np.sum l'.
Proof.
  unfold np.sum. induction 1; simpl; lra.
Qed.

Lemma combine_fst_snd (qs : list (R * R)) :
  combine (map fst qs) (map snd qs) = qs.
Proof.
  induction qs as [|[u v] qs IH]; simpl; [reflexivity | now rewrite IH].
Qed.

Lemma all_identical_perm (l l' : list R) :
  Permutation l l' -> all_identical l -> all_identical l'.
Proof.
  intros Hp H a b Ha Hb.
  apply H; eapply Permutation_in; try eassumption; now apply Permutation_sym.
Qed.

Lemma any_le0_perm (l l' : list R) :
  Permutation l l' -> np.any_le0 l' = np.any_le0 l.
Proof.
  intros Hp.
  assert (H : forall a b, Permutation a b ->
                np.any_le0 a = true -> np.any_le0 b = true).
  { intros a b Hab Ha. apply any_le0_true. apply any_le0_true in Ha.
    apply Exists_exists in Ha. destruct Ha as (v & Hin & Hv).
    apply Exists_exists. exists v. split; [|exact Hv].
    eapply Permutation_in; eassumption. }
  destruct (np.any_le0 l) eqn:E.
  - now apply (H l l').
  - destruct (np.any_le0 l') eqn:E'; [|reflexivity].
    apply (H l' l) in E'; [congruence | now apply Permutation_sym].
Qed.

(** The regression sees the samples as a bag of points. *)
Lemma linregress_perm (qs qs' : list (R * R)) :
  Permutation qs qs' ->
  linregress (map fst qs') (map snd qs')
  = linregress (map fst qs) (map snd qs).
Proof.
  intros Hp.
  pose proof (Permutation_length Hp) as Hlen.
  assert (Hx : Permutation (map fst qs) (map fst qs'))
    by now apply Permutation_map.
  assert (Hy : Permutation (map snd qs) (map snd qs'))
    by now apply Permutation_map.
  assert (Hmx : np.mean (map fst qs') = np.mean (map fst qs)).
  { unfold np.mean. rewrite (sum_perm _ _ Hx), !length_map, Hlen.
    reflexivity. }
  assert (Hmy : np.mean (map snd qs') = np.mean (map snd qs)).
  { unfold np.mean. rewrite (sum_perm _ _ Hy), !length_map, Hlen.
    reflexivity. }
  assert (Hxy : np.dot (np.center (map fst qs')) (np.center (map snd qs'))
                = np.dot (np.center (map fst qs)) (np.center (map snd qs))).
  { unfold np.center. rewrite !dot_center_cross, !combine_fst_snd, Hmx, Hmy.
    symmetry. apply sum_perm. now apply Permutation_map. }
  assert (Hyx : np.dot (np.center (map snd qs')) (np.center (map fst qs'))
                = np.dot (np.center (map snd qs)) (np.center (map fst qs))).
  { unfold np.center. rewrite !dot_center_cross, Hmx, Hmy.
    symmetry. apply sum_perm. apply Permutation_map.
    assert (E : forall l : list (R * R),
              combine (map snd l) (map fst l)
              = map (fun p => (snd p, fst p)) l).
    { induction l as [|[u v] l IH]; simpl; [reflexivity | now rewrite IH]. }
    rewrite !E. now apply Permutation_map. }
  assert (Hxx : np.dot (np.center (map fst qs')) (np.center (map fst qs'))
                = np.dot (np.center (map fst qs)) (np.center (map fst qs))).
  { unfold np.center. rewrite !dot_center_self, Hmx.
    symmetry. apply sum_perm. now apply Permutation_map. }
  assert (Hyy : np.dot (np.center (map snd qs')) (np.center (map snd qs'))
                = np.dot (np.center (map snd qs)) (np.center (map snd qs))).
  { unfold np.center. rewrite !dot_center_self, Hmy.
    symmetry. apply sum_perm. now apply Permutation_map. }
  assert (Hg : Reqb (np.amax (map fst qs')) (np.amin (map fst qs'))
               = Reqb (np.amax (map fst qs)) (np.amin (map fst qs))).
  { destruct (Reqb (np.amax (map fst qs)) (np.amin (map fst qs))) eqn:E.
    - apply Reqb_true, amax_amin_identical.
      apply (all_identical_perm _ _ Hx).
      now apply amax_amin_identical, Reqb_true.
    - apply Reqb_false. intros E'. apply Reqb_false in E. apply E.
      apply amax_amin_identical.
      apply (all_identical_perm _ _ (Permutation_sym Hx)).
      now apply amax_amin_identical. }
  unfold linregress, np.cov_bias.
  rewrite Hg, Hmx, Hmy, Hxx, Hxy, Hyx, Hyy, !length_map, Hlen. reflexivity.
Qed.

End SampleOrder.

Lemma linregress_perm_map (g : R -> R) (ps ps' : list (R * R)) :
  Permutation ps ps' ->
  linregress (map fst ps') (map g (map snd ps'))
  = linregress (map fst ps) (map g (map snd ps)).
Proof.
  intros Hp.
  assert (E : forall l : list (R * R),
            map fst l = map fst (map (fun p => (fst p, g (snd p))) l) /\
            map g (map snd l)
            = map snd (map (fun p => (fst p, g (snd p))) l)).
  { intros l. rewrite !map_map. split; apply map_ext; reflexivity. }
  destruct (E ps) as [-> ->]. destruct (E ps') as [-> ->].
  apply linregress_perm. now apply Permutation_map.
Qed.

Lemma fit_order_perm (ps ps' : list (R * R)) (o : Z) :
  Permutation ps ps' ->
  fit_order (map fst ps') (map snd ps') o
  = match fit_order (map fst ps) (map snd ps) o with
    | OK (r2, (slope, intercept, _, ylabel, sign_factor)) =>
        OK (r2, (slope, intercept,
                 (if (o =? 0)%Z then map snd ps'
                  else linearized o (map snd ps')),
                 ylabel, sign_factor))
    | Raise e => Raise e
    end.
Proof.
  intros Hp.
  assert (Hc : Permutation (map snd ps) (map snd ps'))
    by now apply Permutation_map.
  unfold fit_order, transform_data, np.log, np.reciprocal, linearized.
  rewrite (any_le0_perm _ _ Hc).
  destruct (o =? 0)%Z; simpl.
  - rewrite (linregress_perm ps ps' Hp).
    destruct (linregress (map fst ps) (map snd ps))
      as [[[sl ic] r]|e]; reflexivity.
  - destruct (o =? 1)%Z; simpl.
    + destruct (np.any_le0 (map snd ps)); simpl; [reflexivity|].
      rewrite (linregress_perm_map ln ps ps' Hp).
      destruct (linregress (map fst ps) (map ln (map snd ps)))
        as [[[sl ic] r]|e]; reflexivity.
    + destruct (o =? 2)%Z; simpl; [|reflexivity].
      destruct (np.any_le0 (map snd ps)); simpl; [reflexivity|].
      rewrite (linregress_perm_map (fun c => 1 / c) ps ps' Hp).
      destruct (linregress (map fst ps) (map (fun c => 1 / c) (map snd ps)))
        as [[[sl ic] r]|e]; reflexivity.
Qed.

(** X12. The order in which the samples are listed changes no attempt:
    for two listings of the same (time, concentration) samples and every
    order, the attempt on the second listing raises exactly when the one
    on the first does, with the same exception, and otherwise gives the
    same r-squared (nan included), slope, intercept, label and sign
    factor; its [y] is the order's transform of the concentrations as the
    second listing has them. *)
Theorem sample_order_fit (ps ps' : list (R * R)) (order : Z) :
  Permutation ps ps' ->
  fit_order (map fst ps') (map snd ps') order
  = match fit_order (map fst ps) (map snd ps) order with
    | OK (r2, (slope, intercept, _, ylabel, sign_factor)) =>
        OK (r2, (slope, intercept,
                 (if (order =? 0)%Z then map snd ps'
                  else linearized order (map snd ps')),
                 ylabel, sign_factor))
    | Raise e => Raise e
    end.
Proof.
  intros Hp. now apply fit_order_perm.
Qed.

Lemma sample_order_fit_witness :
  fit_order (map fst [(1, 2); (0, 4); (2, 1)])
            (map snd [(1, 2); (0, 4); (2, 1)]) 1
  = match fit_order (map fst [(0, 4); (1, 2); (2, 1)])
                    (map snd [(0, 4); (1, 2); (2, 1)]) 1 with
    | OK (r2, (slope, intercept, _, ylabel, sign_factor)) =>
        OK (r2, (slope, intercept,
                 linearized 1 (map snd [(1, 2); (0, 4); (2, 1)]),
                 ylabel, sign_factor))
    | Raise e => Raise e
    end.
Proof.
  apply (sample_order_fit [(0, 4); (1, 2); (2, 1)]
           [(1, 2); (0, 4); (2, 1)] 1).
  apply perm_swap.
Defined.
